(** * Checkpoint store of the rollup validator (package [checkpointing])

    A shallow embedding of [RollupCheckpointerImpl]: the linked index of
    checkpoints kept in a flat key-value engine, the reorg walk from the
    tip, the trimming of the head, and the dead queue with its
    incremental garbage collection. *)

From Stdlib Require Import Strings.Byte Strings.String NArith.
From stdpp Require Import gmap gmultiset list.

Local Open Scope N_scope.

(** ** Bytes *)

(** Go's [[]byte] is a list of bytes; a [nil] slice is [None] where the
    code tells it apart from an empty one. *)
Abbreviation bytes := (list byte).

#[global] Instance byte_eq_dec : EqDecision byte := Byte.byte_eq_dec.

#[global] Instance byte_countable : Countable byte.
Proof.
  refine (inj_countable' Byte.to_N (fun n => default x00 (Byte.of_N n)) _).
  intros b. by rewrite Byte.of_to_N.
Defined.

(** [[]byte("...")] on an ASCII literal. *)
Definition lit (s : string) : bytes := String.list_byte_of_string s.

(** [len(b) == 0], true for [nil] as well. *)
Definition len0 (b : option bytes) : bool :=
  match b with
  | None => true
  | Some l => bool_decide (l = [])
  end.

(** ** Data model *)

(** [common.Hash], a 32-byte tag, read as a number; [common.TimeBlocks],
    a non-negative big integer. *)
Definition Hash := N.
Definition TimeBlocks := N.

Record BlockId := mkBlockId { Height : TimeBlocks; HeaderHash : Hash }.

#[global] Instance BlockId_eq_dec : EqDecision BlockId.
Proof. solve_decision. Defined.

(** Modelled from the spec: the generated message [BlockIdBuf] is used in
    the source through a pointer, which is [nil] when the field was never
    set; a set buffer carries both the height and the header hash. *)
Definition BlockIdBuf := option BlockId.

(** [id.MarshalToBuf()] *)
Definition MarshalToBuf (id : BlockId) : BlockIdBuf := Some id.

(** Modelled from the spec: the generated messages of the record codec
    (section 6 of the specification), with the fields the source reads
    and writes. *)
Record CheckpointMetadata := mkMetadata {
  FormatVersion : N;
  Oldest : BlockIdBuf;
  Newest : BlockIdBuf
}.

Record CheckpointLinks := mkLinks {
  Prev : BlockIdBuf;
  Next : BlockIdBuf
}.

Record CheckpointManifest := mkManifest {
  Values : list Hash;
  Machines : list Hash
}.

(** [BlockIdBufList.Bufs]; the entries of a repeated field are never nil. *)
Definition BlockIdBufList := list BlockId.

(** The zero value of each message, [&CheckpointMetadata{}] and so on. *)
Definition emptyMetadata : CheckpointMetadata := mkMetadata 0 None None.
Definition emptyLinks : CheckpointLinks := mkLinks None None.
Definition emptyManifest : CheckpointManifest := mkManifest [] [].

(** ** Record codec *)

(** Modelled from the spec: [proto.Marshal] and [proto.Unmarshal] on the
    messages above.  Encoding is total, decoding is partial, a decoded
    encoding is the record itself, and zero bytes decode to the zero
    value of the message (every field of these messages is optional on
    the wire). *)
Class Codec := {
  marshalBlockId : BlockId -> bytes;
  marshalMetadata : CheckpointMetadata -> bytes;
  unmarshalMetadata : bytes -> option CheckpointMetadata;
  marshalLinks : CheckpointLinks -> bytes;
  unmarshalLinks : bytes -> option CheckpointLinks;
  marshalManifest : CheckpointManifest -> bytes;
  unmarshalManifest : bytes -> option CheckpointManifest;
  marshalQueue : BlockIdBufList -> bytes;
  unmarshalQueue : bytes -> option BlockIdBufList;
  marshalBlockId_inj : forall a b, marshalBlockId a = marshalBlockId b -> a = b;
  unmarshal_marshal_Metadata :
    forall m, unmarshalMetadata (marshalMetadata m) = Some m;
  unmarshal_marshal_Links : forall l, unmarshalLinks (marshalLinks l) = Some l;
  unmarshal_marshal_Manifest :
    forall m, unmarshalManifest (marshalManifest m) = Some m;
  unmarshal_marshal_Queue : forall q, unmarshalQueue (marshalQueue q) = Some q;
  unmarshalMetadata_nil : unmarshalMetadata [] = Some emptyMetadata;
  unmarshalLinks_nil : unmarshalLinks [] = Some emptyLinks;
  unmarshalManifest_nil : unmarshalManifest [] = Some emptyManifest;
  unmarshalQueue_nil : unmarshalQueue [] = Some []
}.

(** [proto.Unmarshal(raw, msg)] reads a nil slice as zero bytes. *)
Definition protoUnmarshal {A} (dec : bytes -> option A) (raw : option bytes)
  : option A := dec (default [] raw).

(** ** The storage adapter and the world it lives in *)

(** Calls on [machine.CheckpointStorage] that change it, in call order. *)
Inductive Event :=
| EvSaveValue (h : Hash)
| EvCheckpoint (h : Hash)
| EvSaveData (key value : bytes)
| EvDeleteData (key : bytes)
| EvDeleteValue (h : Hash)
| EvDeleteCheckpoint (h : Hash).

(** Modelled from the spec: the key-value engine behind
    [machine.CheckpointStorage] (section 4.C): a map from byte keys to
    byte strings, and two content-addressed stores counted by reference,
    where a save inserts or increments and a delete decrements. *)
Record World := mkWorld {
  data : gmap bytes bytes;
  values : gmultiset Hash;
  machines : gmultiset Hash;
  events : list Event
}.

Definition emptyWorld : World := mkWorld ∅ ∅ ∅ [].

(** How a call ends: it returns, the process dies ([log.Fatal] or a nil
    dereference), or the loop bound of the model is used up. *)
Inductive outcome (A : Type) :=
| Done (a : A) (w : World)
| Crash (w : World)
| OutOfFuel (w : World).
Arguments Done {A} a w.
Arguments Crash {A} w.
Arguments OutOfFuel {A} w.

Definition M (A : Type) : Type := World -> outcome A.

Definition ret {A} (a : A) : M A := fun w => Done a w.
Definition bind {A B} (m : M A) (k : A -> M B) : M B :=
  fun w =>
    match m w with
    | Done a w' => k a w'
    | Crash w' => Crash w'
    | OutOfFuel w' => OutOfFuel w'
    end.
Definition crash {A} : M A := fun w => Crash w.
Definition timeout {A} : M A := fun w => OutOfFuel w.

Declare Scope go_scope.
Delimit Scope go_scope with go.
Notation "x <- c ;; k" := (bind c (fun x => k))
  (at level 100, c at next level, right associativity) : go_scope.
Notation "c ;;; k" := (bind c (fun _ => k))
  (at level 100, right associativity) : go_scope.
Local Open Scope go_scope.

(** [st.GetData(key)]: nil when the key is absent. *)
Definition GetData (key : bytes) : M (option bytes) :=
  fun w => Done (data w !! key) w.

(** [st.SaveData(key, value)]; the in-memory engine accepts every write. *)
Definition SaveData (key value : bytes) : M bool :=
  fun w => Done true
    (mkWorld (<[key := value]> (data w)) (values w) (machines w)
             (events w ++ [EvSaveData key value])).

(** [st.DeleteData(key)] *)
Definition DeleteData (key : bytes) : M unit :=
  fun w => Done tt
    (mkWorld (delete key (data w)) (values w) (machines w)
             (events w ++ [EvDeleteData key])).

(** [st.SaveValue(val)]; a value is named by its hash. *)
Definition SaveValue (val : Hash) : M unit :=
  fun w => Done tt
    (mkWorld (data w) (values w ⊎ {[+ val +]}) (machines w)
             (events w ++ [EvSaveValue val])).

(** [st.DeleteValue(hash)] *)
Definition DeleteValue (h : Hash) : M unit :=
  fun w => Done tt
    (mkWorld (data w) (values w ∖ {[+ h +]}) (machines w)
             (events w ++ [EvDeleteValue h])).

(** [st.DeleteCheckpoint(hash)] *)
Definition DeleteCheckpoint (h : Hash) : M unit :=
  fun w => Done tt
    (mkWorld (data w) (values w) (machines w ∖ {[+ h +]})
             (events w ++ [EvDeleteCheckpoint h])).

(** A [machine.Machine]: its hash, and whether the machine codec manages
    to write it. *)
Record Machine := mkMachine { machHash : Hash; checkpointable : bool }.

(** [mach.Checkpoint(st)] *)
Definition Checkpoint (mach : Machine) : M bool :=
  fun w =>
    if checkpointable mach then
      Done true
        (mkWorld (data w) (values w) (machines w ⊎ {[+ machHash mach +]})
                 (events w ++ [EvCheckpoint (machHash mach)]))
    else Done false w.

(** [buf.Unmarshal()] on a [*BlockIdBuf]: a nil receiver is dereferenced. *)
Definition Unmarshal (buf : BlockIdBuf) : M BlockId :=
  match buf with
  | Some id => ret id
  | None => crash
  end.

(** [buf.Height.Unmarshal()] *)
Definition UnmarshalHeight (buf : BlockIdBuf) : M TimeBlocks :=
  match buf with
  | Some id => ret (Height id)
  | None => crash
  end.

(** [for _, x := range xs { body(x) }]; a Go map is ranged over in an
    order the language leaves open, which is the order of the list. *)
Fixpoint forEach {A} (xs : list A) (body : A -> M unit) : M unit :=
  match xs with
  | [] => ret tt
  | x :: rest => body x ;;; forEach rest body
  end.

Inductive error :=
| ErrNoCheckpoints   (* errors.New("no checkpoints in database") *)
| ErrUnmarshal       (* the error of a failed proto.Unmarshal *)
| ErrCallback.       (* an error of the caller's restore function *)

(** The [RestoreContext] handed to the restore function is the
    checkpointer itself. *)
Inductive RestoreContext := rcp.

(** What a [CheckpointContext] answers to [Manifest()], [Values()] and
    [Machines()]. *)
Record CheckpointContext := mkContext {
  ctxManifest : CheckpointManifest;
  ctxValues : list Hash;
  ctxMachines : list Machine
}.

(** [arbbridge.ArbClient.BlockIdForHeight]; [None] is an error. *)
Definition ArbClient := TimeBlocks -> option BlockId.

(** ** The checkpointer *)

Section Checkpointer.

Context {codec : Codec}.

Definition getKeyForId (prefix : bytes) (id : BlockId) : bytes :=
  prefix ++ marshalBlockId id.

Definition getManifestKey (blockId : BlockId) : bytes :=
  getKeyForId (lit "manifest:") blockId.

Definition getContentsKey (blockId : BlockId) : bytes :=
  getKeyForId (lit "contents:") blockId.

Definition getLinksKey (blockId : BlockId) : bytes :=
  getKeyForId (lit "links:") blockId.

Definition SaveMetadata (d : bytes) : M unit :=
  ok <- SaveData (lit "metadata") d ;;
  if ok then ret tt else crash.

Definition RestoreMetadata : M (option bytes) := GetData (lit "metadata").

Definition DeleteMetadata : M unit := DeleteData (lit "metadata").

Definition _setBothPointers (id prev next : BlockId) : M unit :=
  let links := mkLinks (MarshalToBuf prev) (MarshalToBuf next) in
  _ <- SaveData (getLinksKey id) (marshalLinks links) ;;
  ret tt.

Definition _updatePrevPointer (id prev : BlockId) : M unit :=
  let key := getLinksKey id in
  linksBuf <- GetData key ;;
  match protoUnmarshal unmarshalLinks linksBuf with
  | None => crash
  | Some links =>
      let links := mkLinks (MarshalToBuf prev) (Next links) in
      _ <- SaveData key (marshalLinks links) ;;
      ret tt
  end.

Definition _updateNextPointer (id next : BlockId) : M unit :=
  let key := getLinksKey id in
  linksBuf <- GetData key ;;
  match protoUnmarshal unmarshalLinks linksBuf with
  | None => crash
  | Some links =>
      let links := mkLinks (Prev links) (MarshalToBuf next) in
      _ <- SaveData key (marshalLinks links) ;;
      ret tt
  end.

(** The body of the loop over the machines in [SaveCheckpoint]. *)
Definition checkpointMachine (mach : Machine) : M unit :=
  savedMachine <- Checkpoint mach ;;
  if savedMachine then ret tt else crash.

Definition SaveCheckpoint (blockId prevBlockId : BlockId) (contents : bytes)
    (manifest : CheckpointManifest) (vals : list Hash) (machs : list Machine)
  : M unit :=
  forEach vals SaveValue ;;;
  forEach machs checkpointMachine ;;;
  _ <- SaveData (getManifestKey blockId) (marshalManifest manifest) ;;
  _ <- SaveData (getContentsKey blockId) contents ;;
  _updateNextPointer prevBlockId blockId ;;;
  _setBothPointers blockId prevBlockId blockId.

Definition _saveCheckpoint (id : BlockId) (contents : bytes)
    (checkpointCtx : CheckpointContext) : M (option error) :=
  rawMetadata <- RestoreMetadata ;;
  r <- (if len0 rawMetadata then
          let idBuf := MarshalToBuf id in
          let metadataBuf := mkMetadata 1 idBuf idBuf in
          SaveMetadata (marshalMetadata metadataBuf) ;;;
          ret (inr metadataBuf)
        else
          match protoUnmarshal unmarshalMetadata rawMetadata with
          | None => ret (inl ErrUnmarshal)
          | Some metadataBuf => ret (inr metadataBuf)
          end) ;;
  match r with
  | inl err => ret (Some err)
  | inr metadataBuf =>
      newestInCp <- Unmarshal (Newest metadataBuf) ;;
      SaveCheckpoint id newestInCp contents
        (ctxManifest checkpointCtx) (ctxValues checkpointCtx)
        (ctxMachines checkpointCtx) ;;;
      let metadataBuf :=
        mkMetadata (FormatVersion metadataBuf) (Oldest metadataBuf)
                   (MarshalToBuf id) in
      SaveMetadata (marshalMetadata metadataBuf) ;;;
      ret None
  end.

Definition HasCheckpointedState : M bool :=
  metadataBytes <- RestoreMetadata ;;
  ret (negb (len0 metadataBytes)).

Definition RestoreCheckpoint (blockId : BlockId)
  : M (option bytes * option RestoreContext * option error) :=
  rawMetadata <- RestoreMetadata ;;
  match rawMetadata with
  | None => ret (None, None, None)
  | Some raw =>
      match unmarshalMetadata raw with
      | None => ret (None, None, Some ErrUnmarshal)
      | Some metadataBuf =>
          oldestHeightInCp <- UnmarshalHeight (Oldest metadataBuf) ;;
          newestHeightInCp <- UnmarshalHeight (Newest metadataBuf) ;;
          let blockHeight := Height blockId in
          if (blockHeight <? oldestHeightInCp)
             || (newestHeightInCp <? blockHeight)
          then ret (None, None, None)
          else
            contentBytes <- GetData (getContentsKey blockId) ;;
            ret (contentBytes, Some rcp, None)
      end
  end.

(** The job [AsyncSaveCheckpoint] hands to the writer: the error of
    [_saveCheckpoint] is dropped. *)
Definition saveCheckpointJob (blockId : BlockId) (contents : bytes)
    (cpCtx : CheckpointContext) : M unit :=
  _ <- _saveCheckpoint blockId contents cpCtx ;;
  ret tt.

Definition QueueCheckpointForDeletion (blockId : BlockId) : M unit :=
  queueBytes <- GetData (lit "deadqueue") ;;
  match protoUnmarshal unmarshalQueue queueBytes with
  | None => ret tt
  | Some queue =>
      let queue := queue ++ [blockId] in
      _ <- SaveData (lit "deadqueue") (marshalQueue queue) ;;
      ret tt
  end.

(** The [for] loop of [QueueReorgedCheckpointsForDeletion] and the code
    after it; [fuel] bounds the number of times the body is entered. *)
Fixpoint reorgLoop (fuel : nat) (client : ArbClient)
    (metadata : CheckpointMetadata) (oldestId newestId : BlockId) : M unit :=
  if Height oldestId <? Height newestId then
    match fuel with
    | O => timeout
    | S fuel' =>
        match client (Height newestId) with
        | None => ret tt
        | Some onChainId =>
            if HeaderHash onChainId =? HeaderHash newestId then ret tt
            else
              linksBytes <- GetData (getLinksKey newestId) ;;
              match protoUnmarshal unmarshalLinks linksBytes with
              | None => ret tt
              | Some linksBuf =>
                  let metadata :=
                    mkMetadata (FormatVersion metadata) (Oldest metadata)
                               (Prev linksBuf) in
                  SaveMetadata (marshalMetadata metadata) ;;;
                  QueueCheckpointForDeletion newestId ;;;
                  newestId <- Unmarshal (Newest metadata) ;;
                  reorgLoop fuel' client metadata oldestId newestId
              end
        end
    end
  else
    match client (Height newestId) with
    | None => ret tt
    | Some onChainId =>
        if negb (HeaderHash onChainId =? HeaderHash newestId) then
          DeleteMetadata ;;;
          QueueCheckpointForDeletion newestId
        else ret tt
    end.

Definition QueueReorgedCheckpointsForDeletion (fuel : nat)
    (client : ArbClient) : M unit :=
  metadataBuf <- RestoreMetadata ;;
  if len0 metadataBuf then ret tt
  else
    match protoUnmarshal unmarshalMetadata metadataBuf with
    | None => ret tt
    | Some metadata =>
        oldestId <- Unmarshal (Oldest metadata) ;;
        newestId <- Unmarshal (Newest metadata) ;;
        reorgLoop fuel client metadata oldestId newestId
    end.

Definition RestoreLatestState (fuel : nat) (client : ArbClient)
    (unmarshalFunc : option bytes -> option RestoreContext -> M (option error))
  : M (option error) :=
  QueueReorgedCheckpointsForDeletion fuel client ;;;
  metadataBytes <- RestoreMetadata ;;
  has <- HasCheckpointedState ;;
  if negb has then ret (Some ErrNoCheckpoints)
  else
    match protoUnmarshal unmarshalMetadata metadataBytes with
    | None => ret (Some ErrUnmarshal)
    | Some metadata =>
        newestId <- Unmarshal (Newest metadata) ;;
        r <- RestoreCheckpoint newestId ;;
        let '(cobBytes, resCtx, err) := r in
        match err with
        | Some e => ret (Some e)
        | None => unmarshalFunc cobBytes resCtx
        end
    end.

(** One pass through the body of the endless [for] of
    [QueueOldCheckpointsForDeletion]: [true] when the body reaches its
    end and the loop goes round again, [false] when it returns. *)
Definition queueOldBody (earliestRollbackPoint : TimeBlocks) : M bool :=
  metadataBytes <- RestoreMetadata ;;
  match protoUnmarshal unmarshalMetadata metadataBytes with
  | None => ret false
  | Some metadataBuf =>
      candidateId <- Unmarshal (Oldest metadataBuf) ;;
      linksBuf <- GetData (getLinksKey candidateId) ;;
      match protoUnmarshal unmarshalLinks linksBuf with
      | None => ret false
      | Some links =>
          nextHeight <- UnmarshalHeight (Next links) ;;
          if earliestRollbackPoint <=? nextHeight then ret false
          else
            (* metadataBuf.Oldest = links.Next is marshalled into the
               local metadataBytes, which nothing reads or saves *)
            let metadataBuf :=
              mkMetadata (FormatVersion metadataBuf) (Next links)
                         (Newest metadataBuf) in
            let metadataBytes := marshalMetadata metadataBuf in
            QueueCheckpointForDeletion candidateId ;;;
            ret true
      end
  end.

Fixpoint QueueOldCheckpointsForDeletion (fuel : nat)
    (earliestRollbackPoint : TimeBlocks) : M unit :=
  match fuel with
  | O => timeout
  | S fuel' =>
      again <- queueOldBody earliestRollbackPoint ;;
      if again then QueueOldCheckpointsForDeletion fuel' earliestRollbackPoint
      else ret tt
  end.

Definition DeleteOneOldCheckpoint (blockId : BlockId) : M unit :=
  manifestBytes <- GetData (getManifestKey blockId) ;;
  match manifestBytes with
  | None => ret tt
  | Some raw =>
      match unmarshalManifest raw with
      | None => ret tt
      | Some manifestBuf =>
          DeleteData (getManifestKey blockId) ;;;
          forEach (Values manifestBuf) DeleteValue ;;;
          forEach (Machines manifestBuf) DeleteCheckpoint ;;;
          DeleteData (getContentsKey blockId) ;;;
          DeleteData (getLinksKey blockId)
      end
  end.

(** [numToDelete] as [deleteSomeOldCheckpoints] computes it from
    [numInQueue]. *)
Definition numToDelete (numInQueue : nat) : nat :=
  let n := (numInQueue / 10)%nat in
  if (n =? 0)%nat && (0 <? numInQueue)%nat then 1%nat else n.

(** The counting loop of [deleteSomeOldCheckpoints]; [queue.Bufs[0]] on
    an empty slice is an index out of range. *)
Fixpoint deleteLoop (n : nat) (queue : BlockIdBufList) : M BlockIdBufList :=
  match n with
  | O => ret queue
  | S n' =>
      match queue with
      | [] => crash
      | blockId :: rest =>
          DeleteOneOldCheckpoint blockId ;;;
          deleteLoop n' rest
      end
  end.

Definition deleteSomeOldCheckpoints : M unit :=
  queueBytes <- GetData (lit "deadqueue") ;;
  match protoUnmarshal unmarshalQueue queueBytes with
  | None => ret tt
  | Some queue =>
      let numInQueue := length queue in
      queue <- deleteLoop (numToDelete numInQueue) queue ;;
      _ <- SaveData (lit "deadqueue") (marshalQueue queue) ;;
      ret tt
  end.

End Checkpointer.

Arguments lit : simpl never.
Arguments getKeyForId : simpl never.
Arguments getManifestKey : simpl never.
Arguments getContentsKey : simpl never.
Arguments getLinksKey : simpl never.

(** ** Observations on a world *)

(** The world a call leaves behind, however it ends. *)
Definition worldOf {A} (o : outcome A) : World :=
  match o with
  | Done _ w => w
  | Crash w => w
  | OutOfFuel w => w
  end.

(** The decoded dead queue of a world. *)
Definition deadQueue `{Codec} (w : World) : option BlockIdBufList :=
  protoUnmarshal unmarshalQueue (data w !! lit "deadqueue").

(** The decoded metadata and links records of a world. *)
Definition metadataOf `{Codec} (w : World) : option CheckpointMetadata :=
  protoUnmarshal unmarshalMetadata (data w !! lit "metadata").

Definition linksOf `{Codec} (w : World) (id : BlockId)
  : option CheckpointLinks :=
  protoUnmarshal unmarshalLinks (data w !! getLinksKey id).

(** What the [metadata] key holds, as [RestoreCheckpoint] reads it. *)
Inductive MetadataState :=
| MetaAbsent                              (* no such key *)
| MetaCorrupt                             (* bytes that do not decode *)
| MetaUnset                               (* oldest or newest is nil *)
| MetaRange (oldest newest : BlockId).

Definition metadataState `{Codec} (w : World) : MetadataState :=
  match data w !! lit "metadata" with
  | None => MetaAbsent
  | Some raw =>
      match unmarshalMetadata raw with
      | None => MetaCorrupt
      | Some md =>
          match Oldest md, Newest md with
          | Some o, Some n => MetaRange o n
          | _, _ => MetaUnset
          end
      end
  end.

(** The restore context of an answer of [RestoreCheckpoint]; nil when
    the id was turned down. *)
Definition contextOf
    (o : outcome (option bytes * option RestoreContext * option error))
  : option RestoreContext :=
  match o with
  | Done (_, c, _) _ => c
  | _ => None
  end.

(** The reference counts after [DeleteValue] (or [DeleteCheckpoint]) on
    each hash of a list. *)
Definition releaseAll (hs : list Hash) (m : gmultiset Hash) : gmultiset Hash :=
  foldl (fun acc h => acc ∖ {[+ h +]}) m hs.

(** The reference counts after [SaveValue] (or [Checkpoint]) on each
    hash of a list. *)
Definition acquireAll (hs : list Hash) (m : gmultiset Hash) : gmultiset Hash :=
  foldl (fun acc h => acc ⊎ {[+ h +]}) m hs.

(** The calls [DeleteOneOldCheckpoint] makes on the storage for an entry
    whose manifest decodes to [m]. *)
Definition entryDeletes `{Codec} (blockId : BlockId) (m : CheckpointManifest)
  : list Event :=
  EvDeleteData (getManifestKey blockId)
  :: map EvDeleteValue (Values m)
  ++ map EvDeleteCheckpoint (Machines m)
  ++ [EvDeleteData (getContentsKey blockId);
      EvDeleteData (getLinksKey blockId)].

(** The metadata [_saveCheckpoint] works with: made for the id on a
    store without metadata, read from the store otherwise. *)
Definition metadataForSave `{Codec} (w : World) (id : BlockId)
  : option CheckpointMetadata :=
  if len0 (data w !! lit "metadata") then
    Some (mkMetadata 1 (MarshalToBuf id) (MarshalToBuf id))
  else metadataOf w.

(** The tip before the save of [id]. *)
Definition prevTip `{Codec} (w : World) (id : BlockId) : option BlockId :=
  md ← metadataForSave w id; Newest md.

(** The write of the first metadata, made only on a store without
    metadata. *)
Definition firstMetadataWrite `{Codec} (w : World) (id : BlockId)
  : list Event :=
  if len0 (data w !! lit "metadata") then
    [EvSaveData (lit "metadata")
       (marshalMetadata (mkMetadata 1 (MarshalToBuf id) (MarshalToBuf id)))]
  else [].

(** The calls [SaveCheckpoint] makes for [id] on top of the tip [tip],
    whose links record decoded to [old]. *)
Definition checkpointWrites `{Codec} (id tip : BlockId) (old : CheckpointLinks)
    (contents : bytes) (ctx : CheckpointContext) : list Event :=
  map EvSaveValue (ctxValues ctx)
  ++ map EvCheckpoint (map machHash (ctxMachines ctx))
  ++ [EvSaveData (getManifestKey id) (marshalManifest (ctxManifest ctx));
      EvSaveData (getContentsKey id) contents;
      EvSaveData (getLinksKey tip)
        (marshalLinks (mkLinks (Prev old) (Some id)));
      EvSaveData (getLinksKey id)
        (marshalLinks (mkLinks (Some tip) (Some id)))].

(** The world in which [_saveCheckpoint] calls [SaveCheckpoint]: the
    store itself, or the store with the first metadata written. *)
Definition startWorld `{Codec} (w : World) (id : BlockId) : World :=
  if len0 (data w !! lit "metadata") then
    worldOf (SaveMetadata
               (marshalMetadata (mkMetadata 1 (MarshalToBuf id) (MarshalToBuf id)))
               w)
  else w.

(** The metadata written at the end of a save of [id]. *)
Definition lastMetadata (md : CheckpointMetadata) (id : BlockId)
  : CheckpointMetadata :=
  mkMetadata (FormatVersion md) (Oldest md) (MarshalToBuf id).

(** The store after the reorg walk has unlinked the tip [tip], whose
    prev is [prev]: the metadata is persisted with [prev] as newest and
    [tip] is put on the dead queue. *)
Definition unlinkTip `{Codec} (md : CheckpointMetadata) (tip prev : BlockId)
    (w : World) : World :=
  worldOf (QueueCheckpointForDeletion tip
    (worldOf (SaveMetadata
       (marshalMetadata
          (mkMetadata (FormatVersion md) (Oldest md) (Some prev))) w))).

(** The store after [n] rounds of the loop of
    [QueueOldCheckpointsForDeletion] on the candidate [cand]. *)
Definition requeued `{Codec} (cand : BlockId) (n : nat) (w : World) : World :=
  Nat.iter n (fun w' => worldOf (QueueCheckpointForDeletion cand w')) w.

(** The ids the walk from the tip [tip] can come to by following prev. *)
Inductive onWalk `{Codec} (w : World) (tip : BlockId) : BlockId -> Prop :=
| walk_tip : onWalk w tip tip
| walk_prev id l p :
    onWalk w tip id -> linksOf w id = Some l -> Prev l = Some p ->
    onWalk w tip p.

(** Along the walk, above the oldest height, every links record that
    decodes has a prev of a lower height. *)
Definition walkDescends `{Codec} (w : World) (o tip : BlockId) : Prop :=
  forall id l, onWalk w tip id -> Height o < Height id ->
    linksOf w id = Some l ->
    exists p, Prev l = Some p /\ Height p < Height id.

(** [key] is one of the three keys of the record of [id]. *)
Definition recordKeyOf `{Codec} (id : BlockId) (key : bytes) : Prop :=
  key = getManifestKey id \/ key = getContentsKey id \/ key = getLinksKey id.

(** The store after [n] ticks of the garbage collector. *)
Definition ticks `{Codec} (n : nat) (w : World) : World :=
  Nat.iter n (fun w' => worldOf (deleteSomeOldCheckpoints w')) w.

(** The id before position [i] of a chain; the first id is its own
    prev. *)
Definition chainPrev (ids : list BlockId) (i : nat) (id : BlockId) : BlockId :=
  match i with
  | O => id
  | S j => default id (ids !! j)
  end.

(** The store holds the checkpoints [ids], oldest first, as a linked
    chain: the metadata names the first as oldest and the last as
    newest, and the links record of each id has the id before it as
    prev and, for every id but the last, the id after it as next.  The
    next of the last id is left open. *)
Definition linkedChain `{Codec} (w : World) (ids : list BlockId) : Prop :=
  NoDup ids /\
  (exists v o n,
     head ids = Some o /\ last ids = Some n /\
     len0 (data w !! lit "metadata") = false /\
     metadataOf w = Some (mkMetadata v (Some o) (Some n))) /\
  forall i id, ids !! i = Some id ->
    exists l, linksOf w id = Some l /\
      Prev l = Some (chainPrev ids i id) /\
      forall nx, ids !! S i = Some nx -> Next l = Some nx.

(** Two worlds that differ at most in the [metadata] and [deadqueue]
    keys and in the log of calls. *)
Definition sameRecords (w w' : World) : Prop :=
  values w' = values w /\ machines w' = machines w /\
  forall key, key <> lit "metadata" -> key <> lit "deadqueue" ->
    data w' !! key = data w !! key.

(** The store the reorg loop works on holds the metadata the loop
    carries. *)
Definition loopState `{Codec} (w : World) (md : CheckpointMetadata)
    (o n : BlockId) : Prop :=
  len0 (data w !! lit "metadata") = false /\ metadataOf w = Some md /\
  Oldest md = Some o /\ Newest md = Some n.

(** A tail of orphans: every id of [suf] lies above the oldest height
    and is not the canonical block of its height. *)
Definition orphans (client : ArbClient) (o : BlockId) (suf : list BlockId)
  : Prop :=
  forall x, x ∈ suf ->
    Height o < Height x /\
    exists c, client (Height x) = Some c /\ HeaderHash c <> HeaderHash x.

(** ** The claims in the words of the specification *)

(** The number of entries the specification lets one tick remove. *)
Definition specNumToDelete (len : nat) : nat :=
  if (len =? 0)%nat then 0%nat else Nat.max 1 ((len + 9) / 10).

(** The claim that the manifest key goes last: of the calls made for the
    entry, the final one deletes the manifest key. *)
Definition manifest_deleted_last `{Codec} (blockId : BlockId) (w : World)
  : Prop :=
  forall w', DeleteOneOldCheckpoint blockId w = Done tt w' ->
    last (drop (length (events w)) (events w'))
    = Some (EvDeleteData (getManifestKey blockId)).

(** The claim on the size of a tick: the queue left behind is the old
    one without its first [specNumToDelete] entries. *)
Definition tick_removes_spec_count `{Codec} (w : World) : Prop :=
  forall q, deadQueue w = Some q ->
    exists w', deleteSomeOldCheckpoints w = Done tt w' /\
      deadQueue w' = Some (drop (specNumToDelete (length q)) q).

(** The claim that a tick on an empty queue changes nothing in the
    store, the [deadqueue] key included. *)
Definition tick_on_empty_is_noop `{Codec} (w : World) : Prop :=
  deadQueue w = Some [] ->
  exists w', deleteSomeOldCheckpoints w = Done tt w' /\
    data w' = data w /\ values w' = values w /\ machines w' = machines w.

(** The claim that the header hash of the requested id plays no part:
    two ids of one height get the same answer. *)
Definition lookup_ignores_hash `{Codec} (w : World) : Prop :=
  forall a b, Height a = Height b ->
    RestoreCheckpoint a w = RestoreCheckpoint b w.

(** The order of writes the specification gives for a save. *)
Definition specWrites `{Codec} (id tip : BlockId) (old : CheckpointLinks)
    (md : CheckpointMetadata) (contents : bytes) (ctx : CheckpointContext)
  : list Event :=
  map EvSaveValue (ctxValues ctx)
  ++ map EvCheckpoint (map machHash (ctxMachines ctx))
  ++ [EvSaveData (getManifestKey id) (marshalManifest (ctxManifest ctx));
      EvSaveData (getContentsKey id) contents;
      EvSaveData (getLinksKey id)
        (marshalLinks (mkLinks (Some tip) (Some id)))]
  ++ (if decide (tip = id) then []
      else [EvSaveData (getLinksKey tip)
              (marshalLinks (mkLinks (Prev old) (Some id)))])
  ++ [EvSaveData (lit "metadata") (marshalMetadata md)].

(** The claim on the order of writes: a committed save makes the writes
    of [specWrites], for the tip, the old links of the tip and the new
    metadata of that save. *)
Definition writes_in_spec_order `{Codec} (id : BlockId) (contents : bytes)
    (ctx : CheckpointContext) (w : World) : Prop :=
  forall w', _saveCheckpoint id contents ctx w = Done None w' ->
    exists tip old md,
      drop (length (events w)) (events w')
      = specWrites id tip old md contents ctx.


(** ** A reference codec *)

(** A self-delimiting encoding of the records, used to run the
    checkpointer on concrete stores.  Numbers are written bit by bit,
    lowest bit first. *)
Module RefCodec.

Fixpoint encPos (p : positive) : bytes :=
  match p with
  | xI q => x01 :: encPos q
  | xO q => x00 :: encPos q
  | xH => [x02]
  end.

Fixpoint decPos (l : bytes) : option (positive * bytes) :=
  match l with
  | x00 :: r => '(q, r') ← decPos r; Some (xO q, r')
  | x01 :: r => '(q, r') ← decPos r; Some (xI q, r')
  | x02 :: r => Some (xH, r)
  | _ => None
  end.

Definition encN (n : N) : bytes :=
  match n with
  | N0 => [x03]
  | Npos p => encPos p
  end.

Definition decN (l : bytes) : option (N * bytes) :=
  match l with
  | x03 :: r => Some (N0, r)
  | _ => '(p, r) ← decPos l; Some (Npos p, r)
  end.

Definition encId (id : BlockId) : bytes :=
  encN (Height id) ++ encN (HeaderHash id).

Definition decId (l : bytes) : option (BlockId * bytes) :=
  '(h, r) ← decN l; '(x, r') ← decN r; Some (mkBlockId h x, r').

Definition encBuf (b : BlockIdBuf) : bytes :=
  match b with
  | None => [x00]
  | Some id => x01 :: encId id
  end.

Definition decBuf (l : bytes) : option (BlockIdBuf * bytes) :=
  match l with
  | x00 :: r => Some (None, r)
  | x01 :: r => '(id, r') ← decId r; Some (Some id, r')
  | _ => None
  end.

Fixpoint encMany {A} (enc : A -> bytes) (xs : list A) : bytes :=
  match xs with
  | [] => []
  | x :: rest => enc x ++ encMany enc rest
  end.

Fixpoint decMany {A} (dec : bytes -> option (A * bytes)) (n : nat) (l : bytes)
  : option (list A * bytes) :=
  match n with
  | O => Some ([], l)
  | S k => '(x, r) ← dec l; '(rest, r') ← decMany dec k r; Some (x :: rest, r')
  end.

Definition encList {A} (enc : A -> bytes) (xs : list A) : bytes :=
  encN (N.of_nat (length xs)) ++ encMany enc xs.

Definition decList {A} (dec : bytes -> option (A * bytes)) (l : bytes)
  : option (list A * bytes) :=
  '(n, r) ← decN l; decMany dec (N.to_nat n) r.

Definition encMetadata (m : CheckpointMetadata) : bytes :=
  encN (FormatVersion m) ++ encBuf (Oldest m) ++ encBuf (Newest m).

Definition decMetadata (l : bytes) : option (CheckpointMetadata * bytes) :=
  '(v, r) ← decN l; '(o, r') ← decBuf r; '(n, r'') ← decBuf r';
  Some (mkMetadata v o n, r'').

Definition encLinks (k : CheckpointLinks) : bytes :=
  encBuf (Prev k) ++ encBuf (Next k).

Definition decLinks (l : bytes) : option (CheckpointLinks * bytes) :=
  '(p, r) ← decBuf l; '(n, r') ← decBuf r; Some (mkLinks p n, r').

Definition encManifest (m : CheckpointManifest) : bytes :=
  encList encN (Values m) ++ encList encN (Machines m).

Definition decManifest (l : bytes) : option (CheckpointManifest * bytes) :=
  '(vs, r) ← decList decN l; '(ms, r') ← decList decN r;
  Some (mkManifest vs ms, r').

(** A whole message: zero bytes are the zero value, and nothing may
    follow the record. *)
Definition whole {A} (zero : A) (dec : bytes -> option (A * bytes)) (l : bytes)
  : option A :=
  match l with
  | [] => Some zero
  | _ => match dec l with
         | Some (x, []) => Some x
         | _ => None
         end
  end.

Lemma decPos_enc p r : decPos (encPos p ++ r) = Some (p, r).
Proof. induction p as [q IH|q IH|]; simpl; by rewrite ?IH. Qed.

Lemma decN_enc n r : decN (encN n ++ r) = Some (n, r).
Proof.
  destruct n as [|p]; [done|].
  unfold decN, encN. rewrite decPos_enc.
  by destruct p.
Qed.

Lemma decId_enc id r : decId (encId id ++ r) = Some (id, r).
Proof.
  destruct id as [h x]. unfold decId, encId; simpl.
  rewrite <- app_assoc, decN_enc. simpl. by rewrite decN_enc.
Qed.

Lemma decBuf_enc b r : decBuf (encBuf b ++ r) = Some (b, r).
Proof. destruct b as [id|]; simpl; [by rewrite decId_enc | done]. Qed.

Lemma decMany_enc {A} (enc : A -> bytes) dec xs r :
  (forall x r', dec (enc x ++ r') = Some (x, r')) ->
  decMany dec (length xs) (encMany enc xs ++ r) = Some (xs, r).
Proof.
  intros Hdec. induction xs as [|x rest IH]; simpl; [done|].
  rewrite <- app_assoc, Hdec. simpl. by rewrite IH.
Qed.

Lemma decList_enc {A} (enc : A -> bytes) dec xs r :
  (forall x r', dec (enc x ++ r') = Some (x, r')) ->
  decList dec (encList enc xs ++ r) = Some (xs, r).
Proof.
  intros Hdec. unfold decList, encList.
  rewrite <- app_assoc, decN_enc. simpl.
  rewrite Nat2N.id. by apply decMany_enc.
Qed.

Lemma decMetadata_enc m r : decMetadata (encMetadata m ++ r) = Some (m, r).
Proof.
  destruct m as [v o n]. unfold decMetadata, encMetadata; simpl.
  rewrite <- !app_assoc, decN_enc. simpl.
  rewrite decBuf_enc. simpl. by rewrite decBuf_enc.
Qed.

Lemma decLinks_enc k r : decLinks (encLinks k ++ r) = Some (k, r).
Proof.
  destruct k as [p n]. unfold decLinks, encLinks; simpl.
  rewrite <- !app_assoc, decBuf_enc. simpl. by rewrite decBuf_enc.
Qed.

Lemma decManifest_enc m r : decManifest (encManifest m ++ r) = Some (m, r).
Proof.
  destruct m as [vs ms]. unfold decManifest, encManifest; simpl.
  rewrite <- !app_assoc, (decList_enc encN) by apply decN_enc. simpl.
  by rewrite (decList_enc encN) by apply decN_enc.
Qed.

Lemma encN_cons n r : exists b l, encN n ++ r = b :: l.
Proof. destruct n as [|[q|q|]]; simpl; eauto. Qed.

Lemma whole_enc {A} (zero : A) enc dec x :
  (forall r, dec (enc x ++ r) = Some (x, r)) ->
  (exists b l, enc x = b :: l) ->
  whole zero dec (enc x) = Some x.
Proof.
  intros Hdec (b & l & Hcons). unfold whole.
  specialize (Hdec []). rewrite app_nil_r in Hdec.
  rewrite Hdec, Hcons. done.
Qed.

Lemma encId_inj a b : encId a = encId b -> a = b.
Proof.
  intros H.
  assert (Hd : decId (encId a ++ []) = decId (encId b ++ [])) by by rewrite H.
  rewrite !decId_enc in Hd. congruence.
Qed.

#[export] Instance ref : Codec.
Proof.
  refine {|
    marshalBlockId := encId;
    marshalMetadata := encMetadata;
    unmarshalMetadata := whole emptyMetadata decMetadata;
    marshalLinks := encLinks;
    unmarshalLinks := whole emptyLinks decLinks;
    marshalManifest := encManifest;
    unmarshalManifest := whole emptyManifest decManifest;
    marshalQueue := encList encId;
    unmarshalQueue := whole [] (decList decId)
  |}; try done.
  - exact encId_inj.
  - intros m. apply whole_enc; [intros r; apply decMetadata_enc|].
    unfold encMetadata. apply encN_cons.
  - intros k. apply whole_enc; [intros r; apply decLinks_enc|].
    unfold encLinks. destruct (Prev k); simpl; eauto.
  - intros m. apply whole_enc; [intros r; apply decManifest_enc|].
    unfold encManifest, encList. rewrite <- app_assoc. apply encN_cons.
  - intros q. apply whole_enc; [intros r; apply decList_enc, decId_enc|].
    unfold encList. apply encN_cons.
Defined.

End RefCodec.

(** ** Sample stores *)

(** Stores built by the checkpointer itself over the reference codec:
    three saves at heights 10, 11 and 12. *)
Module Sample.
Import RefCodec.

Definition idA : BlockId := mkBlockId 10 1.
Definition idB : BlockId := mkBlockId 11 2.
Definition idC : BlockId := mkBlockId 12 3.

Definition manifest1 : CheckpointManifest := mkManifest [1] [].
Definition ctx1 : CheckpointContext := mkContext manifest1 [1] [].

Definition wA : World := worldOf (_saveCheckpoint idA [x78] ctx1 emptyWorld).
Definition wAB : World := worldOf (_saveCheckpoint idB [x79] ctx1 wA).
Definition wABC : World := worldOf (_saveCheckpoint idC [x7a] ctx1 wAB).

(** A dead queue of eleven entries. *)
Definition queue11 : BlockIdBufList :=
  map (fun n => mkBlockId n n) [1; 2; 3; 4; 5; 6; 7; 8; 9; 10; 11].

Definition wQueue11 : World :=
  mkWorld {[ lit "deadqueue" := marshalQueue queue11 ]} ∅ ∅ [].

Definition metaABC : CheckpointMetadata := mkMetadata 1 (Some idA) (Some idC).

(** The chain client of a reorg at height 12: another header hash there,
    the saved one at height 11. *)
Definition clientReorg12 : ArbClient :=
  fun h =>
    if h =? 12 then Some (mkBlockId 12 26)
    else if h =? 11 then Some idB
    else None.

(** The restore function of the scenarios: it accepts the contents it
    expects and answers anything else with an error. *)
Definition expectContents (want : bytes) (got : option bytes)
    (ctx : option RestoreContext) : M (option error) :=
  if bool_decide (got = Some want) then ret None else ret (Some ErrCallback).

End Sample.

(** More sample stores and contexts over the reference codec. *)
Module MoreSamples.
Import RefCodec Sample.

(** A store whose metadata key holds bytes that do not decode. *)
Definition wCorrupt : World :=
  mkWorld {[ lit "metadata" := [xff] ]} ∅ ∅ [].

(** A context with a machine that cannot be written. *)
Definition ctxBad : CheckpointContext :=
  mkContext manifest1 [1] [mkMachine 7 false].

Definition metaA : CheckpointMetadata := mkMetadata 1 (Some idA) (Some idA).

(** A chain client on which no saved block is canonical. *)
Definition clientOther : ArbClient := fun h => Some (mkBlockId h 99).




End MoreSamples.

(** ** Keys *)

Section Keys.

Context {codec : Codec}.

Lemma getKeyForId_inj prefix a b :
  getKeyForId prefix a = getKeyForId prefix b -> a = b.
Proof.
  unfold getKeyForId. intros H. apply app_inv_head in H.
  by apply marshalBlockId_inj.
Qed.

Lemma links_key_inj a b : getLinksKey a = getLinksKey b -> a = b.
Proof. apply getKeyForId_inj. Qed.

Lemma contents_key_inj a b : getContentsKey a = getContentsKey b -> a = b.
Proof. apply getKeyForId_inj. Qed.

Lemma links_key_ne a b : a <> b -> getLinksKey a <> getLinksKey b.
Proof. intros Hne H. by apply Hne, links_key_inj. Qed.

Lemma contents_key_ne a b : a <> b -> getContentsKey a <> getContentsKey b.
Proof. intros Hne H. by apply Hne, contents_key_inj. Qed.

Lemma metadata_not_links a : lit "metadata" <> getLinksKey a.
Proof. discriminate. Qed.

Lemma metadata_not_contents a : lit "metadata" <> getContentsKey a.
Proof. discriminate. Qed.

Lemma metadata_not_manifest a : lit "metadata" <> getManifestKey a.
Proof. discriminate. Qed.

Lemma metadata_not_deadqueue : lit "metadata" <> lit "deadqueue".
Proof. discriminate. Qed.

Lemma deadqueue_not_links a : lit "deadqueue" <> getLinksKey a.
Proof. discriminate. Qed.

Lemma deadqueue_not_contents a : lit "deadqueue" <> getContentsKey a.
Proof. discriminate. Qed.

Lemma deadqueue_not_manifest a : lit "deadqueue" <> getManifestKey a.
Proof. discriminate. Qed.

Lemma manifest_not_links a b : getManifestKey a <> getLinksKey b.
Proof. discriminate. Qed.

Lemma manifest_not_contents a b : getManifestKey a <> getContentsKey b.
Proof. discriminate. Qed.

Lemma contents_not_links a b : getContentsKey a <> getLinksKey b.
Proof. discriminate. Qed.

End Keys.

(** ** Garbage collection of the dead queue *)

Section GC.

Context {codec : Codec}.

Lemma forEach_DeleteValue hs w :
  forEach hs DeleteValue w
  = Done tt (mkWorld (data w) (releaseAll hs (values w)) (machines w)
                     (events w ++ map EvDeleteValue hs)).
Proof.
  revert w. induction hs as [|h hs IH]; intros [d v m e]; simpl.
  - unfold ret. by rewrite app_nil_r.
  - unfold bind, DeleteValue. simpl. rewrite IH. simpl.
    by rewrite <- List.app_assoc.
Qed.

Lemma forEach_DeleteCheckpoint hs w :
  forEach hs DeleteCheckpoint w
  = Done tt (mkWorld (data w) (values w) (releaseAll hs (machines w))
                     (events w ++ map EvDeleteCheckpoint hs)).
Proof.
  revert w. induction hs as [|h hs IH]; intros [d v m e]; simpl.
  - unfold ret. by rewrite app_nil_r.
  - unfold bind, DeleteCheckpoint. simpl. rewrite IH. simpl.
    by rewrite <- List.app_assoc.
Qed.

(** What [DeleteOneOldCheckpoint] does to the world when the manifest is
    there and decodes. *)
Lemma DeleteOneOldCheckpoint_present blockId raw m w :
  data w !! getManifestKey blockId = Some raw ->
  unmarshalManifest raw = Some m ->
  DeleteOneOldCheckpoint blockId w
  = Done tt
      (mkWorld
         (delete (getLinksKey blockId)
            (delete (getContentsKey blockId)
               (delete (getManifestKey blockId) (data w))))
         (releaseAll (Values m) (values w))
         (releaseAll (Machines m) (machines w))
         (events w ++ entryDeletes blockId m)).
Proof.
  intros Hraw Hm. unfold DeleteOneOldCheckpoint, bind, GetData.
  rewrite Hraw, Hm. unfold DeleteData at 1. simpl.
  rewrite forEach_DeleteValue. simpl.
  rewrite forEach_DeleteCheckpoint. simpl.
  unfold DeleteData. simpl. unfold entryDeletes.
  do 2 f_equal. rewrite <- !List.app_assoc. simpl. by rewrite <- ?List.app_assoc.
Qed.

(** [DeleteOneOldCheckpoint] always returns, and never touches the
    [deadqueue] key. *)
Lemma DeleteOneOldCheckpoint_total blockId w :
  exists w', DeleteOneOldCheckpoint blockId w = Done tt w' /\
    data w' !! lit "deadqueue" = data w !! lit "deadqueue".
Proof.
  destruct (data w !! getManifestKey blockId) as [raw|] eqn:Hraw.
  - destruct (unmarshalManifest raw) as [m|] eqn:Hm.
    + eexists. split; [by eapply DeleteOneOldCheckpoint_present|]. simpl.
      rewrite !lookup_delete_ne; [done| | |].
      * intros E. symmetry in E. by apply deadqueue_not_manifest in E.
      * intros E. symmetry in E. by apply deadqueue_not_contents in E.
      * intros E. symmetry in E. by apply deadqueue_not_links in E.
    + exists w. unfold DeleteOneOldCheckpoint, bind, GetData.
      by rewrite Hraw, Hm.
  - exists w. unfold DeleteOneOldCheckpoint, bind, GetData. by rewrite Hraw.
Qed.

Lemma deleteLoop_total n queue w :
  (n <= length queue)%nat ->
  exists w', deleteLoop n queue w = Done (drop n queue) w' /\
    data w' !! lit "deadqueue" = data w !! lit "deadqueue".
Proof.
  revert queue w. induction n as [|n IH]; intros queue w Hn.
  - exists w. by rewrite drop_0.
  - destruct queue as [|blockId rest]; [simpl in Hn; lia|].
    simpl in Hn.
    destruct (DeleteOneOldCheckpoint_total blockId w) as (w1 & H1 & Hq1).
    destruct (IH rest w1 ltac:(lia)) as (w2 & H2 & Hq2).
    exists w2. simpl. unfold bind. rewrite H1, H2.
    split; [done | congruence].
Qed.

(** [numToDelete] in closed form: a tenth of the queue, rounded down, but
    at least one entry unless the queue is empty. *)
Lemma numToDelete_floor n :
  numToDelete n = if (n =? 0)%nat then 0%nat else Nat.max 1 (n / 10).
Proof.
  unfold numToDelete.
  destruct (n =? 0)%nat eqn:E0.
  - apply Nat.eqb_eq in E0. by subst.
  - apply Nat.eqb_neq in E0.
    destruct (n / 10 =? 0)%nat eqn:E1.
    + apply Nat.eqb_eq in E1. rewrite E1.
      assert ((0 <? n)%nat = true) as -> by (apply Nat.ltb_lt; lia). done.
    + apply Nat.eqb_neq in E1. cbn [andb]. lia.
Qed.

Lemma numToDelete_le n : (numToDelete n <= n)%nat.
Proof.
  rewrite numToDelete_floor.
  pose proof (Nat.Div0.div_le_upper_bound n 10 n ltac:(lia)) as Hdiv.
  destruct (n =? 0)%nat eqn:E0; [lia|].
  apply Nat.eqb_neq in E0. lia.
Qed.

(** One tick on a queue that decodes. *)
Lemma deleteSomeOldCheckpoints_queue w q :
  deadQueue w = Some q ->
  exists w', deleteSomeOldCheckpoints w = Done tt w' /\
    deadQueue w' = Some (drop (numToDelete (length q)) q).
Proof.
  unfold deadQueue. intros Hq.
  destruct (deleteLoop_total (numToDelete (length q)) q w (numToDelete_le _))
    as (w1 & H1 & _).
  eexists. unfold deleteSomeOldCheckpoints, bind, GetData.
  rewrite Hq, H1. simpl. split; [done|]. simpl.
  rewrite lookup_insert_eq. unfold protoUnmarshal. simpl.
  apply unmarshal_marshal_Queue.
Qed.

(** One tick on a queue that decodes to no entries. *)
Lemma deleteSomeOldCheckpoints_empty w :
  deadQueue w = Some [] ->
  deleteSomeOldCheckpoints w
  = Done tt
      (mkWorld (<[lit "deadqueue" := marshalQueue []]> (data w))
               (values w) (machines w)
               (events w ++ [EvSaveData (lit "deadqueue") (marshalQueue [])])).
Proof.
  unfold deadQueue. intros Hq.
  unfold deleteSomeOldCheckpoints, bind, GetData. by rewrite Hq.
Qed.

End GC.

Section GCClaims.

Context {codec : Codec}.

(** C4 (as the code has it): for a dequeued id whose manifest is present
    and decodes, [DeleteOneOldCheckpoint] deletes the manifest key first;
    the referenced value hashes, the referenced machine hashes, the
    contents key and the links key are deleted after it, in this order,
    so the links key is the last delete of the entry. *)
Theorem DeleteOneOldCheckpoint_manifest_first blockId raw m w :
  data w !! getManifestKey blockId = Some raw ->
  unmarshalManifest raw = Some m ->
  exists w', DeleteOneOldCheckpoint blockId w = Done tt w' /\
    drop (length (events w)) (events w')
    = EvDeleteData (getManifestKey blockId)
      :: map EvDeleteValue (Values m)
      ++ map EvDeleteCheckpoint (Machines m)
      ++ [EvDeleteData (getContentsKey blockId);
          EvDeleteData (getLinksKey blockId)] /\
    head (drop (length (events w)) (events w'))
    = Some (EvDeleteData (getManifestKey blockId)) /\
    last (drop (length (events w)) (events w'))
    = Some (EvDeleteData (getLinksKey blockId)).
Proof.
  intros Hraw Hm. eexists. split.
  { by eapply DeleteOneOldCheckpoint_present. }
  simpl. rewrite drop_app_length. unfold entryDeletes.
  split; [done|]. split; [done|].
  rewrite app_comm_cons, app_assoc.
  change [EvDeleteData (getContentsKey blockId);
          EvDeleteData (getLinksKey blockId)]
    with ([EvDeleteData (getContentsKey blockId)]
          ++ [EvDeleteData (getLinksKey blockId)]).
  by rewrite app_assoc, last_snoc.
Qed.

(** C5 (as the code has it): on a dead queue of [len] entries one tick
    removes [len / 10] entries, rounded down, from the head of the queue,
    at least one when the queue is not empty and none when it is. *)
Theorem deleteSomeOldCheckpoints_count w q :
  deadQueue w = Some q ->
  exists w', deleteSomeOldCheckpoints w = Done tt w' /\
    deadQueue w' = Some (drop (numToDelete (length q)) q) /\
    numToDelete (length q)
    = (if (length q =? 0)%nat then 0 else Nat.max 1 (length q / 10))%nat.
Proof.
  intros Hq.
  destruct (deleteSomeOldCheckpoints_queue w q Hq) as (w' & Hrun & Hq').
  exists w'. split; [done|]. split; [done|]. apply numToDelete_floor.
Qed.

(** C9 (as the code has it): on a dead queue without entries a tick
    deletes nothing and leaves the values, the machines and every key
    but [deadqueue] as they are; it writes the encoding of the empty
    queue to [deadqueue], which leaves the store unchanged when the key
    held that encoding and creates the key when it was absent. *)
Theorem deleteSomeOldCheckpoints_empty_queue w :
  deadQueue w = Some [] ->
  exists w', deleteSomeOldCheckpoints w = Done tt w' /\
    events w' = events w ++ [EvSaveData (lit "deadqueue") (marshalQueue [])] /\
    values w' = values w /\ machines w' = machines w /\
    data w' = <[lit "deadqueue" := marshalQueue []]> (data w) /\
    (forall key, key <> lit "deadqueue" -> data w' !! key = data w !! key) /\
    (data w !! lit "deadqueue" = Some (marshalQueue []) -> data w' = data w).
Proof.
  intros Hq. eexists. split.
  { by apply deleteSomeOldCheckpoints_empty. }
  simpl. repeat split; try done.
  - intros key Hkey. by rewrite lookup_insert_ne.
  - intros Hcanon. by apply insert_id.
Qed.

End GCClaims.

Module GCSample.
Import RefCodec Sample.

Lemma DeleteOneOldCheckpoint_manifest_first_witness :
  exists w', DeleteOneOldCheckpoint idA wA = Done tt w' /\
    drop (length (events wA)) (events w')
    = EvDeleteData (getManifestKey idA)
      :: map EvDeleteValue (Values manifest1)
      ++ map EvDeleteCheckpoint (Machines manifest1)
      ++ [EvDeleteData (getContentsKey idA); EvDeleteData (getLinksKey idA)] /\
    head (drop (length (events wA)) (events w'))
    = Some (EvDeleteData (getManifestKey idA)) /\
    last (drop (length (events wA)) (events w'))
    = Some (EvDeleteData (getLinksKey idA)).
Proof.
  apply (DeleteOneOldCheckpoint_manifest_first idA
           (marshalManifest manifest1) manifest1 wA); reflexivity.
Defined.

(** C4 as the claim words it fails on the store holding the single
    checkpoint [idA]: the last delete of the entry is not the one of the
    manifest key. *)
Lemma manifest_not_deleted_last : ~ manifest_deleted_last idA wA.
Proof.
  intros H. specialize (H _ eq_refl). vm_compute in H. discriminate H.
Qed.

Lemma deleteSomeOldCheckpoints_count_witness :
  exists w', deleteSomeOldCheckpoints wQueue11 = Done tt w' /\
    deadQueue w' = Some (drop (numToDelete (length queue11)) queue11) /\
    numToDelete (length queue11)
    = (if (length queue11 =? 0)%nat then 0
       else Nat.max 1 (length queue11 / 10))%nat.
Proof.
  apply (deleteSomeOldCheckpoints_count wQueue11 queue11); reflexivity.
Defined.

(** C5 as the claim words it fails on a queue of eleven entries: the
    tick removes one entry, where the rounded-up tenth is two. *)
Lemma tick_does_not_round_up : ~ tick_removes_spec_count wQueue11.
Proof.
  intros H. destruct (H queue11 eq_refl) as (w' & Hrun & Hq).
  vm_compute in Hrun. injection Hrun as <-.
  vm_compute in Hq. discriminate Hq.
Qed.

Lemma deleteSomeOldCheckpoints_empty_queue_witness :
  exists w', deleteSomeOldCheckpoints emptyWorld = Done tt w' /\
    events w'
    = events emptyWorld ++ [EvSaveData (lit "deadqueue") (marshalQueue [])] /\
    values w' = values emptyWorld /\ machines w' = machines emptyWorld /\
    data w' = <[lit "deadqueue" := marshalQueue []]> (data emptyWorld) /\
    (forall key, key <> lit "deadqueue" ->
       data w' !! key = data emptyWorld !! key) /\
    (data emptyWorld !! lit "deadqueue" = Some (marshalQueue []) ->
       data w' = data emptyWorld).
Proof.
  apply (deleteSomeOldCheckpoints_empty_queue emptyWorld); reflexivity.
Defined.

(** C9 as the claim words it fails on the new store: the dead queue has
    no entries, and the tick creates the [deadqueue] key. *)
Lemma tick_on_empty_creates_key : ~ tick_on_empty_is_noop emptyWorld.
Proof.
  intros H. destruct (H eq_refl) as (w' & Hrun & Hdata & _).
  vm_compute in Hrun. injection Hrun as <-.
  apply (f_equal (fun d => d !! lit "deadqueue")) in Hdata.
  vm_compute in Hdata. discriminate Hdata.
Qed.

End GCSample.

(** ** Restoring *)

Section Restore.

Context {codec : Codec}.

Lemma RestoreCheckpoint_eq blockId w :
  RestoreCheckpoint blockId w
  = match metadataState w with
    | MetaAbsent => Done (None, None, None) w
    | MetaCorrupt => Done (None, None, Some ErrUnmarshal) w
    | MetaUnset => Crash w
    | MetaRange o n =>
        if (Height blockId <? Height o) || (Height n <? Height blockId)
        then Done (None, None, None) w
        else Done (data w !! getContentsKey blockId, Some rcp, None) w
    end.
Proof.
  unfold RestoreCheckpoint, metadataState, RestoreMetadata, bind, GetData.
  destruct (data w !! lit "metadata") as [raw|]; [|done].
  destruct (unmarshalMetadata raw) as [[v [o|] [n|]]|]; simpl; try done.
  destruct ((Height blockId <? Height o) || (Height n <? Height blockId));
    done.
Qed.

Lemma metadataState_range w raw md o n :
  data w !! lit "metadata" = Some raw ->
  unmarshalMetadata raw = Some md ->
  Oldest md = Some o -> Newest md = Some n ->
  metadataState w = MetaRange o n.
Proof.
  intros Hraw Hmd Ho Hn. unfold metadataState. by rewrite Hraw, Hmd, Ho, Hn.
Qed.

Lemma out_of_range_true (h lo hi : N) :
  h < lo \/ hi < h -> (h <? lo) || (hi <? h) = true.
Proof.
  intros [Hlt|Hlt]; apply orb_true_iff; [left|right]; by apply N.ltb_lt.
Qed.

Lemma out_of_range_false (h lo hi : N) :
  lo <= h -> h <= hi -> (h <? lo) || (hi <? h) = false.
Proof.
  intros Hlo Hhi. apply orb_false_iff. split; apply N.ltb_ge; lia.
Qed.

(** C7 (as the code has it): on a store with metadata,
    [RestoreCheckpoint] decides by the height alone whether an id is in
    the store: below the oldest height or above the newest it answers
    none, and in between it answers with the bytes under the contents
    key of the requested id and with the restore context.  The header
    hash is not looked at for this decision, but it is part of the
    contents key, so it does decide which bytes an accepted id gets. *)
Theorem RestoreCheckpoint_range_by_height w raw md o n blockId :
  data w !! lit "metadata" = Some raw ->
  unmarshalMetadata raw = Some md ->
  Oldest md = Some o -> Newest md = Some n ->
  (Height o <= Height blockId -> Height blockId <= Height n ->
     RestoreCheckpoint blockId w
     = Done (data w !! getContentsKey blockId, Some rcp, None) w) /\
  (Height blockId < Height o \/ Height n < Height blockId ->
     RestoreCheckpoint blockId w = Done (None, None, None) w) /\
  (forall other, Height other = Height blockId ->
     contextOf (RestoreCheckpoint other w)
     = contextOf (RestoreCheckpoint blockId w)) /\
  (forall other, other <> blockId ->
     getContentsKey other <> getContentsKey blockId).
Proof.
  intros Hraw Hmd Ho Hn.
  pose proof (metadataState_range w raw md o n Hraw Hmd Ho Hn) as Hst.
  repeat split.
  - intros Hlo Hhi. rewrite RestoreCheckpoint_eq, Hst.
    by rewrite out_of_range_false.
  - intros Hout. rewrite RestoreCheckpoint_eq, Hst.
    by rewrite out_of_range_true.
  - intros other Hh. rewrite !RestoreCheckpoint_eq, Hst, Hh.
    by destruct ((Height blockId <? Height o) || (Height n <? Height blockId)).
  - intros other. apply contents_key_ne.
Qed.

(** C10: [RestoreCheckpoint] returns an error only when the metadata is
    there and does not decode.  Without metadata, and for a height out
    of range, it returns no contents, no context and no error; for a
    height in range it returns whatever the contents key holds, nil when
    the key is absent, with no error, and asks for no other record.  It
    never changes the store. *)
Theorem RestoreCheckpoint_error_only_on_decode w blockId :
  (data w !! lit "metadata" = None ->
     RestoreCheckpoint blockId w = Done (None, None, None) w) /\
  (forall o n, metadataState w = MetaRange o n ->
     (Height blockId < Height o \/ Height n < Height blockId ->
        RestoreCheckpoint blockId w = Done (None, None, None) w) /\
     (Height o <= Height blockId -> Height blockId <= Height n ->
        RestoreCheckpoint blockId w
        = Done (data w !! getContentsKey blockId, Some rcp, None) w)) /\
  (forall raw, data w !! lit "metadata" = Some raw ->
     unmarshalMetadata raw = None ->
     RestoreCheckpoint blockId w = Done (None, None, Some ErrUnmarshal) w) /\
  (forall contents ctx err w',
     RestoreCheckpoint blockId w = Done (contents, ctx, Some err) w' ->
     exists raw, data w !! lit "metadata" = Some raw /\
       unmarshalMetadata raw = None) /\
  (forall r w', RestoreCheckpoint blockId w = Done r w' -> w' = w).
Proof.
  split; [|split; [|split; [|split]]].
  - intros Hnone. rewrite RestoreCheckpoint_eq. unfold metadataState.
    by rewrite Hnone.
  - intros o n Hst. rewrite RestoreCheckpoint_eq, Hst. split.
    + intros Hout. by rewrite out_of_range_true.
    + intros Hlo Hhi. by rewrite out_of_range_false.
  - intros raw Hraw Hmd. rewrite RestoreCheckpoint_eq. unfold metadataState.
    by rewrite Hraw, Hmd.
  - intros contents ctx err w'. rewrite RestoreCheckpoint_eq.
    unfold metadataState.
    destruct (data w !! lit "metadata") as [raw|]; [|congruence].
    destruct (unmarshalMetadata raw) as [[v [o|] [n|]]|] eqn:Hmd; simpl;
      try congruence; [|eauto].
    destruct ((Height blockId <? Height o) || (Height n <? Height blockId));
      congruence.
  - intros r w'. rewrite RestoreCheckpoint_eq.
    destruct (metadataState w) as [| | |o n]; try congruence.
    destruct ((Height blockId <? Height o) || (Height n <? Height blockId));
      congruence.
Qed.

(** C8: on a store without metadata [HasCheckpointedState] is false, and
    [RestoreLatestState] returns the error "no checkpoints in database"
    and leaves the store as it is, whatever the restore function would
    do: the restore function is not called. *)
Theorem RestoreLatestState_no_metadata w fuel client unmarshalFunc :
  len0 (data w !! lit "metadata") = true ->
  HasCheckpointedState w = Done false w /\
  RestoreLatestState fuel client unmarshalFunc w
  = Done (Some ErrNoCheckpoints) w.
Proof.
  intros Hlen.
  unfold RestoreLatestState, QueueReorgedCheckpointsForDeletion,
    HasCheckpointedState, RestoreMetadata, bind, GetData, ret.
  rewrite !Hlen. simpl. by split.
Qed.

End Restore.

Module RestoreSample.
Import RefCodec Sample.

Lemma RestoreCheckpoint_range_by_height_witness :
    (Height idA <= Height idB -> Height idB <= Height idC ->
     RestoreCheckpoint idB wABC
     = Done (data wABC !! getContentsKey idB, Some rcp, None) wABC) /\
  (Height idB < Height idA \/ Height idC < Height idB ->
     RestoreCheckpoint idB wABC = Done (None, None, None) wABC) /\
  (forall other, Height other = Height idB ->
     contextOf (RestoreCheckpoint other wABC)
     = contextOf (RestoreCheckpoint idB wABC)) /\
  (forall other, other <> idB ->
     getContentsKey other <> getContentsKey idB).
Proof.
  apply (RestoreCheckpoint_range_by_height wABC
           (marshalMetadata metaABC) metaABC idA idC idB); reflexivity.
Defined.

(** C7 as the claim words it fails on the store of the three saves: the
    saved id of height 12 gets its contents, another id of height 12
    gets none. *)
Lemma lookup_depends_on_hash : ~ lookup_ignores_hash wABC.
Proof.
  intros H. specialize (H idC (mkBlockId 12 4) eq_refl).
  vm_compute in H. discriminate H.
Qed.

Lemma RestoreCheckpoint_error_only_on_decode_witness :
  RestoreCheckpoint idB emptyWorld = Done (None, None, None) emptyWorld /\
  RestoreCheckpoint (mkBlockId 13 4) wABC = Done (None, None, None) wABC /\
  RestoreCheckpoint (mkBlockId 12 4) wABC = Done (None, Some rcp, None) wABC.
Proof.
  split; [|split].
  - apply (RestoreCheckpoint_error_only_on_decode (codec := ref)
             emptyWorld idB).
    reflexivity.
  - destruct (RestoreCheckpoint_error_only_on_decode (codec := ref) wABC
                (mkBlockId 13 4)) as (_ & Hrange & _).
    apply (Hrange idA idC); [reflexivity | right; reflexivity].
  - destruct (RestoreCheckpoint_error_only_on_decode (codec := ref) wABC
                (mkBlockId 12 4)) as (_ & Hrange & _).
    apply (Hrange idA idC); [reflexivity | discriminate | discriminate].
Defined.

Lemma RestoreLatestState_no_metadata_witness :
  HasCheckpointedState emptyWorld = Done false emptyWorld /\
  RestoreLatestState 0 (fun _ => None) (fun _ _ => crash) emptyWorld
  = Done (Some ErrNoCheckpoints) emptyWorld.
Proof.
  apply (RestoreLatestState_no_metadata emptyWorld 0 (fun _ => None)
           (fun _ _ => crash)); reflexivity.
Defined.

End RestoreSample.

(** ** Saving *)

Section Save.

Context {codec : Codec}.

Lemma forEach_SaveValue hs w :
  forEach hs SaveValue w
  = Done tt (mkWorld (data w) (acquireAll hs (values w)) (machines w)
                     (events w ++ map EvSaveValue hs)).
Proof.
  revert w. induction hs as [|h hs IH]; intros [d v m e]; simpl.
  - unfold ret. by rewrite app_nil_r.
  - unfold bind, SaveValue. simpl. rewrite IH. simpl.
    by rewrite <- List.app_assoc.
Qed.

Lemma forEach_checkpointMachine_ok machs w :
  forallb checkpointable machs = true ->
  forEach machs checkpointMachine w
  = Done tt (mkWorld (data w) (values w)
                     (acquireAll (map machHash machs) (machines w))
                     (events w ++ map EvCheckpoint (map machHash machs))).
Proof.
  revert w. induction machs as [|[h ok] machs IH]; intros [d v m e] Hok; simpl.
  - unfold ret. by rewrite app_nil_r.
  - simpl in Hok. apply andb_true_iff in Hok as [-> Hrest].
    unfold bind, checkpointMachine, bind, Checkpoint. simpl.
    rewrite IH by done. simpl. by rewrite <- List.app_assoc.
Qed.

Lemma forEach_checkpointMachine_fail machs w :
  forallb checkpointable machs = false ->
  exists w', forEach machs checkpointMachine w = Crash w'.
Proof.
  revert w. induction machs as [|[h ok] machs IH]; intros w Hok; simpl in *.
  - done.
  - unfold bind at 1, checkpointMachine, bind, Checkpoint. simpl.
    destruct ok; simpl in *.
    + edestruct IH as (w' & Hw'); [exact Hok|]. rewrite Hw'. eauto.
    + unfold crash. eauto.
Qed.

(** The world [SaveCheckpoint] leaves when every machine can be written
    and the links record of the tip decodes. *)
Lemma SaveCheckpoint_ok id tip old contents ctx w :
  forallb checkpointable (ctxMachines ctx) = true ->
  linksOf w tip = Some old ->
  SaveCheckpoint id tip contents (ctxManifest ctx) (ctxValues ctx)
    (ctxMachines ctx) w
  = Done tt
      (mkWorld
         (<[getLinksKey id := marshalLinks (mkLinks (Some tip) (Some id))]>
            (<[getLinksKey tip := marshalLinks (mkLinks (Prev old) (Some id))]>
               (<[getContentsKey id := contents]>
                  (<[getManifestKey id := marshalManifest (ctxManifest ctx)]>
                     (data w)))))
         (acquireAll (ctxValues ctx) (values w))
         (acquireAll (map machHash (ctxMachines ctx)) (machines w))
         (events w ++ checkpointWrites id tip old contents ctx)).
Proof.
  intros Hok Hold. unfold linksOf in Hold.
  unfold SaveCheckpoint, bind.
  rewrite forEach_SaveValue. simpl.
  rewrite forEach_checkpointMachine_ok by done. simpl.
  unfold _updateNextPointer, _setBothPointers, bind, GetData, SaveData. simpl.
  rewrite lookup_insert_ne by (intros E; by apply contents_not_links in E).
  rewrite lookup_insert_ne by (intros E; by apply manifest_not_links in E).
  rewrite Hold. unfold ret, MarshalToBuf, checkpointWrites. simpl.
  do 2 f_equal. by rewrite <- !List.app_assoc.
Qed.

(** [SaveCheckpoint] returns only under the conditions of
    [SaveCheckpoint_ok]. *)
Lemma SaveCheckpoint_inv id tip contents ctx w w' :
  SaveCheckpoint id tip contents (ctxManifest ctx) (ctxValues ctx)
    (ctxMachines ctx) w = Done tt w' ->
  forallb checkpointable (ctxMachines ctx) = true /\
  exists old, linksOf w tip = Some old.
Proof.
  unfold SaveCheckpoint, bind at 1. rewrite forEach_SaveValue.
  unfold bind at 1.
  destruct (forallb checkpointable (ctxMachines ctx)) eqn:Hok.
  - intros Hrun. split; [done|]. revert Hrun.
    rewrite forEach_checkpointMachine_ok by done.
    unfold _updateNextPointer, _setBothPointers, bind, GetData, SaveData.
    simpl.
    rewrite lookup_insert_ne by (intros E; by apply contents_not_links in E).
    rewrite lookup_insert_ne by (intros E; by apply manifest_not_links in E).
    unfold linksOf.
    destruct (protoUnmarshal unmarshalLinks (data w !! getLinksKey tip));
      [eauto | done].
  - edestruct forEach_checkpointMachine_fail as (w1 & ->); [exact Hok|].
    done.
Qed.

End Save.

Section SaveSteps.

Context {codec : Codec}.

Lemma startWorld_events w id :
  events (startWorld w id) = events w ++ firstMetadataWrite w id.
Proof.
  unfold startWorld, firstMetadataWrite.
  destruct (len0 (data w !! lit "metadata")); simpl; [done|].
  by rewrite app_nil_r.
Qed.

Lemma startWorld_links w id tip : linksOf (startWorld w id) tip = linksOf w tip.
Proof.
  unfold startWorld, linksOf.
  destruct (len0 (data w !! lit "metadata")); simpl; [|done].
  by rewrite lookup_insert_ne by apply metadata_not_links.
Qed.

(** [_saveCheckpoint] step by step. *)
Lemma _saveCheckpoint_unfold id contents ctx w :
  _saveCheckpoint id contents ctx w
  = match metadataForSave w id with
    | None => Done (Some ErrUnmarshal) w
    | Some md =>
        match Newest md with
        | None => Crash (startWorld w id)
        | Some tip =>
            match SaveCheckpoint id tip contents (ctxManifest ctx)
                    (ctxValues ctx) (ctxMachines ctx) (startWorld w id) with
            | Done _ w1 =>
                Done None
                  (mkWorld
                     (<[lit "metadata" := marshalMetadata (lastMetadata md id)]>
                        (data w1))
                     (values w1) (machines w1)
                     (events w1
                      ++ [EvSaveData (lit "metadata")
                            (marshalMetadata (lastMetadata md id))]))
            | Crash w1 => Crash w1
            | OutOfFuel w1 => OutOfFuel w1
            end
        end
    end.
Proof.
  unfold _saveCheckpoint, metadataForSave, startWorld, metadataOf,
    RestoreMetadata, bind at 1 2, GetData.
  destruct (len0 (data w !! lit "metadata")) eqn:Hlen.
  - unfold bind at 1, SaveMetadata, bind at 1, SaveData. simpl.
    unfold bind, ret. simpl.
    destruct (SaveCheckpoint _ _ _ _ _ _ _); done.
  - destruct (protoUnmarshal unmarshalMetadata (data w !! lit "metadata"))
      as [md|]; [|done].
    simpl. unfold bind at 1.
    destruct (Newest md) as [tip|]; [|done]. simpl.
    unfold bind, SaveMetadata, bind, SaveData, ret. simpl.
    destruct (SaveCheckpoint _ _ _ _ _ _ _); done.
Qed.

(** A save commits when the metadata is absent or decodes with a tip,
    every machine can be written and the links record of the tip
    decodes; here is the world it leaves. *)
Lemma _saveCheckpoint_commits id contents ctx w md tip old :
  metadataForSave w id = Some md ->
  Newest md = Some tip ->
  forallb checkpointable (ctxMachines ctx) = true ->
  linksOf w tip = Some old ->
  _saveCheckpoint id contents ctx w
  = Done None
      (mkWorld
         (<[lit "metadata" := marshalMetadata (lastMetadata md id)]>
            (<[getLinksKey id := marshalLinks (mkLinks (Some tip) (Some id))]>
               (<[getLinksKey tip :=
                    marshalLinks (mkLinks (Prev old) (Some id))]>
                  (<[getContentsKey id := contents]>
                     (<[getManifestKey id := marshalManifest (ctxManifest ctx)]>
                        (data (startWorld w id)))))))
         (acquireAll (ctxValues ctx) (values (startWorld w id)))
         (acquireAll (map machHash (ctxMachines ctx))
            (machines (startWorld w id)))
         (events w ++ firstMetadataWrite w id
          ++ checkpointWrites id tip old contents ctx
          ++ [EvSaveData (lit "metadata")
                (marshalMetadata (lastMetadata md id))])).
Proof.
  intros Hmd Htip Hok Hold.
  rewrite _saveCheckpoint_unfold, Hmd, Htip.
  rewrite (SaveCheckpoint_ok id tip old) by (by rewrite ?startWorld_links).
  simpl. rewrite startWorld_events. do 2 f_equal.
  by rewrite <- !List.app_assoc.
Qed.

(** A save commits only under the conditions of [_saveCheckpoint_commits]. *)
Lemma _saveCheckpoint_inv id contents ctx w w' :
  _saveCheckpoint id contents ctx w = Done None w' ->
  exists md tip old,
    metadataForSave w id = Some md /\ Newest md = Some tip /\
    forallb checkpointable (ctxMachines ctx) = true /\
    linksOf w tip = Some old.
Proof.
  rewrite _saveCheckpoint_unfold.
  destruct (metadataForSave w id) as [md|]; [|done].
  destruct (Newest md) as [tip|] eqn:Htip; [|done].
  destruct (SaveCheckpoint _ _ _ _ _ _ _) as [[] w1|w1|w1] eqn:Hsave; try done.
  intros _. apply SaveCheckpoint_inv in Hsave as (Hok & old & Hold).
  rewrite startWorld_links in Hold. eauto 10.
Qed.

End SaveSteps.

Section SaveClaims.

Context {codec : Codec}.

(** C2: after a committed save of [id] on top of the tip [tip] (which is
    [id] itself when the store had no metadata), the newest id of the
    metadata is [id], the links record of [id] has [tip] as prev and
    [id] itself as next, and when [tip] is another id its links record
    has [id] as next.  The unconditional [_updateNextPointer] does not
    disturb this, also for the first checkpoint, since
    [_setBothPointers] writes after it. *)
Theorem _saveCheckpoint_links_tip id contents ctx w w' :
  _saveCheckpoint id contents ctx w = Done None w' ->
  exists tip,
    prevTip w id = Some tip /\
    (len0 (data w !! lit "metadata") = true -> tip = id) /\
    Newest <$> metadataOf w' = Some (Some id) /\
    linksOf w' id = Some (mkLinks (Some tip) (Some id)) /\
    (tip <> id -> Next <$> linksOf w' tip = Some (Some id)).
Proof.
  intros Hrun.
  destruct (_saveCheckpoint_inv _ _ _ _ _ Hrun)
    as (md & tip & old & Hmd & Htip & Hok & Hold).
  rewrite (_saveCheckpoint_commits _ _ _ _ md tip old) in Hrun by done.
  injection Hrun as <-. exists tip.
  unfold prevTip, metadataOf, linksOf, protoUnmarshal. simpl.
  split; [by rewrite Hmd|]. split; [|split; [|split]].
  - intros Hlen. unfold metadataForSave in Hmd. rewrite Hlen in Hmd.
    injection Hmd as <-. simpl in Htip. by injection Htip.
  - rewrite lookup_insert_eq. simpl. by rewrite unmarshal_marshal_Metadata.
  - rewrite lookup_insert_ne by apply metadata_not_links.
    rewrite lookup_insert_eq. simpl. by rewrite unmarshal_marshal_Links.
  - intros Hne.
    rewrite lookup_insert_ne by apply metadata_not_links.
    rewrite lookup_insert_ne by (apply links_key_ne; congruence).
    rewrite lookup_insert_eq. simpl. by rewrite unmarshal_marshal_Links.
Qed.

(** C3 (as the code has it): a committed save writes, in this order,
    each value, each machine, the manifest and the contents of the new
    id, then the links record of the previous tip with its next pointer
    set to the new id (also when the previous tip is the new id), then
    the links record of the new id, and last the metadata with the new
    id as newest.  On a store without metadata one more write comes
    before all of these: the first metadata, with the new id as oldest
    and newest. *)
Theorem _saveCheckpoint_write_order id contents ctx w w' :
  _saveCheckpoint id contents ctx w = Done None w' ->
  exists md tip old,
    metadataForSave w id = Some md /\ Newest md = Some tip /\
    linksOf w tip = Some old /\
    drop (length (events w)) (events w')
    = firstMetadataWrite w id
      ++ map EvSaveValue (ctxValues ctx)
      ++ map EvCheckpoint (map machHash (ctxMachines ctx))
      ++ [EvSaveData (getManifestKey id) (marshalManifest (ctxManifest ctx));
          EvSaveData (getContentsKey id) contents;
          EvSaveData (getLinksKey tip)
            (marshalLinks (mkLinks (Prev old) (Some id)));
          EvSaveData (getLinksKey id)
            (marshalLinks (mkLinks (Some tip) (Some id)));
          EvSaveData (lit "metadata")
            (marshalMetadata
               (mkMetadata (FormatVersion md) (Oldest md) (Some id)))].
Proof.
  intros Hrun.
  destruct (_saveCheckpoint_inv _ _ _ _ _ Hrun)
    as (md & tip & old & Hmd & Htip & Hok & Hold).
  rewrite (_saveCheckpoint_commits _ _ _ _ md tip old) in Hrun by done.
  injection Hrun as <-. exists md, tip, old.
  split; [done|]. split; [done|]. split; [done|].
  simpl. rewrite drop_app_length. unfold checkpointWrites.
  by rewrite <- !List.app_assoc.
Qed.

End SaveClaims.

Module SaveSample.
Import RefCodec Sample.

Lemma _saveCheckpoint_links_tip_witness :
  exists tip,
    prevTip wA idB = Some tip /\
    (len0 (data wA !! lit "metadata") = true -> tip = idB) /\
    Newest <$> metadataOf wAB = Some (Some idB) /\
    linksOf wAB idB = Some (mkLinks (Some tip) (Some idB)) /\
    (tip <> idB -> Next <$> linksOf wAB tip = Some (Some idB)).
Proof.
  apply (_saveCheckpoint_links_tip idB [x79] ctx1 wA wAB). reflexivity.
Defined.

Lemma _saveCheckpoint_write_order_witness :
  exists md tip old,
    metadataForSave emptyWorld idA = Some md /\ Newest md = Some tip /\
    linksOf emptyWorld tip = Some old /\
    drop (length (events emptyWorld)) (events wA)
    = firstMetadataWrite emptyWorld idA
      ++ map EvSaveValue (ctxValues ctx1)
      ++ map EvCheckpoint (map machHash (ctxMachines ctx1))
      ++ [EvSaveData (getManifestKey idA) (marshalManifest (ctxManifest ctx1));
          EvSaveData (getContentsKey idA) [x78];
          EvSaveData (getLinksKey tip)
            (marshalLinks (mkLinks (Prev old) (Some idA)));
          EvSaveData (getLinksKey idA)
            (marshalLinks (mkLinks (Some tip) (Some idA)));
          EvSaveData (lit "metadata")
            (marshalMetadata
               (mkMetadata (FormatVersion md) (Oldest md) (Some idA)))].
Proof.
  apply (_saveCheckpoint_write_order idA [x78] ctx1 emptyWorld wA). reflexivity.
Defined.

(** C3 as the claim words it fails twice: on the new store the first
    write of the save is a metadata write, and on the store holding
    [idA] the save of [idB] rewrites the links record of [idA] before it
    writes the one of [idB]. *)
Lemma writes_not_in_spec_order :
  ~ writes_in_spec_order idA [x78] ctx1 emptyWorld /\
  ~ writes_in_spec_order idB [x79] ctx1 wA.
Proof.
  split; intros H; destruct (H _ eq_refl) as (tip & old & md & Heq);
    vm_compute in Heq; discriminate Heq.
Qed.

End SaveSample.

(** ** The dead queue, the reorg walk and the trimming of the head *)

Section Queue.

Context {codec : Codec}.

Lemma bind_eq {A B} (m : M A) (k : A -> M B) w :
  bind m k w
  = match m w with
    | Done a w' => k a w'
    | Crash w' => Crash w'
    | OutOfFuel w' => OutOfFuel w'
    end.
Proof. done. Qed.

Lemma GetData_eq key w : GetData key w = Done (data w !! key) w.
Proof. done. Qed.

Lemma SaveMetadata_eq d w :
  SaveMetadata d w
  = Done tt (mkWorld (<[lit "metadata" := d]> (data w)) (values w)
               (machines w) (events w ++ [EvSaveData (lit "metadata") d])).
Proof. done. Qed.

Lemma QueueCheckpointForDeletion_eq blockId w :
  QueueCheckpointForDeletion blockId w
  = Done tt
      match deadQueue w with
      | None => w
      | Some q =>
          mkWorld
            (<[lit "deadqueue" := marshalQueue (q ++ [blockId])]> (data w))
            (values w) (machines w)
            (events w
             ++ [EvSaveData (lit "deadqueue") (marshalQueue (q ++ [blockId]))])
      end.
Proof.
  unfold QueueCheckpointForDeletion, deadQueue, bind, GetData.
  by destruct (protoUnmarshal unmarshalQueue (data w !! lit "deadqueue")).
Qed.

Lemma QueueCheckpointForDeletion_other blockId w key :
  key <> lit "deadqueue" ->
  data (worldOf (QueueCheckpointForDeletion blockId w)) !! key
  = data w !! key.
Proof.
  intros Hkey. rewrite QueueCheckpointForDeletion_eq. simpl.
  destruct (deadQueue w); simpl; [|done].
  by rewrite lookup_insert_ne.
Qed.

Lemma QueueCheckpointForDeletion_queue blockId w q :
  deadQueue w = Some q ->
  deadQueue (worldOf (QueueCheckpointForDeletion blockId w))
  = Some (q ++ [blockId]).
Proof.
  intros Hq. rewrite QueueCheckpointForDeletion_eq. simpl. rewrite Hq.
  unfold deadQueue, protoUnmarshal. simpl. rewrite lookup_insert_eq. simpl.
  apply unmarshal_marshal_Queue.
Qed.

Lemma QueueCheckpointForDeletion_metadata blockId w :
  metadataOf (worldOf (QueueCheckpointForDeletion blockId w)) = metadataOf w.
Proof.
  unfold metadataOf.
  by rewrite QueueCheckpointForDeletion_other by apply metadata_not_deadqueue.
Qed.

Lemma QueueCheckpointForDeletion_links blockId w id :
  linksOf (worldOf (QueueCheckpointForDeletion blockId w)) id = linksOf w id.
Proof.
  unfold linksOf. rewrite QueueCheckpointForDeletion_other; [done|].
  intros E. symmetry in E. by apply deadqueue_not_links in E.
Qed.

(** Only the zero value of the metadata may be encoded by zero bytes. *)
Lemma marshalMetadata_nonempty md :
  Oldest md <> None -> marshalMetadata md <> [].
Proof.
  intros Hold Hnil.
  pose proof (unmarshal_marshal_Metadata md) as Hrt.
  rewrite Hnil, unmarshalMetadata_nil in Hrt.
  injection Hrt as <-. by apply Hold.
Qed.

End Queue.

Section Reorg.

Context {codec : Codec}.

(** On a store with metadata [QueueReorgedCheckpointsForDeletion] enters
    its loop with the decoded metadata and its two ids. *)
Lemma QueueReorged_start fuel client w md o n :
  len0 (data w !! lit "metadata") = false ->
  metadataOf w = Some md ->
  Oldest md = Some o -> Newest md = Some n ->
  QueueReorgedCheckpointsForDeletion fuel client w
  = reorgLoop fuel client md o n w.
Proof.
  unfold metadataOf. intros Hlen Hmd Ho Hn.
  unfold QueueReorgedCheckpointsForDeletion, RestoreMetadata, bind at 1,
    GetData.
  rewrite Hlen, Hmd, Ho, Hn. done.
Qed.

Lemma unlinkTip_metadata_key md tip prev w :
  data (unlinkTip md tip prev w) !! lit "metadata"
  = Some (marshalMetadata
            (mkMetadata (FormatVersion md) (Oldest md) (Some prev))).
Proof.
  unfold unlinkTip.
  rewrite QueueCheckpointForDeletion_other by apply metadata_not_deadqueue.
  simpl. by rewrite lookup_insert_eq.
Qed.

Lemma unlinkTip_metadata md tip prev w :
  metadataOf (unlinkTip md tip prev w)
  = Some (mkMetadata (FormatVersion md) (Oldest md) (Some prev)).
Proof.
  unfold metadataOf. rewrite unlinkTip_metadata_key.
  apply unmarshal_marshal_Metadata.
Qed.

Lemma unlinkTip_queue md tip prev w q :
  deadQueue w = Some q ->
  deadQueue (unlinkTip md tip prev w) = Some (q ++ [tip]).
Proof.
  intros Hq. unfold unlinkTip.
  apply QueueCheckpointForDeletion_queue.
  unfold deadQueue in *. simpl.
  rewrite lookup_insert_ne; [done|].
  apply metadata_not_deadqueue.
Qed.

(** One round of the loop on a tip that is not canonical and whose links
    decode with a prev: the loop goes on from the unlinked store. *)
Lemma reorgLoop_unlink fuel client md o n c l p w :
  Height o < Height n ->
  client (Height n) = Some c ->
  HeaderHash c <> HeaderHash n ->
  linksOf w n = Some l -> Prev l = Some p ->
  reorgLoop (S fuel) client md o n w
  = reorgLoop fuel client
      (mkMetadata (FormatVersion md) (Oldest md) (Some p)) o p
      (unlinkTip md n p w).
Proof.
  unfold linksOf. intros Hlt Hc Hne Hl Hp. simpl.
  apply N.ltb_lt in Hlt. rewrite Hlt, Hc.
  apply N.eqb_neq in Hne. rewrite Hne.
  unfold bind at 1, GetData. rewrite Hl, Hp.
  rewrite bind_eq, SaveMetadata_eq, bind_eq, QueueCheckpointForDeletion_eq.
  unfold unlinkTip. rewrite SaveMetadata_eq. simpl.
  by rewrite QueueCheckpointForDeletion_eq.
Qed.

(** The same round when the links decode without a prev (as the links
    of an absent key do): the metadata is persisted with no newest id,
    the tip is queued, and the nil id is dereferenced. *)
Lemma reorgLoop_nil_prev fuel client md o n c l w :
  Height o < Height n ->
  client (Height n) = Some c ->
  HeaderHash c <> HeaderHash n ->
  linksOf w n = Some l -> Prev l = None ->
  reorgLoop (S fuel) client md o n w
  = Crash
      (worldOf (QueueCheckpointForDeletion n
         (worldOf (SaveMetadata
            (marshalMetadata
               (mkMetadata (FormatVersion md) (Oldest md) None)) w)))).
Proof.
  unfold linksOf. intros Hlt Hc Hne Hl Hp. simpl.
  apply N.ltb_lt in Hlt. rewrite Hlt, Hc.
  apply N.eqb_neq in Hne. rewrite Hne.
  unfold bind at 1, GetData. rewrite Hl, Hp.
  by rewrite bind_eq, SaveMetadata_eq, bind_eq, QueueCheckpointForDeletion_eq.
Qed.


End Reorg.

Module ReorgSample.
Import RefCodec Sample RestoreSample.



End ReorgSample.

Section Trim.

Context {codec : Codec}.

Lemma requeued_S cand n w :
  requeued cand (S n) w
  = requeued cand n (worldOf (QueueCheckpointForDeletion cand w)).
Proof. unfold requeued. by rewrite Nat.iter_succ_r. Qed.

Lemma requeued_metadata cand n w :
  metadataOf (requeued cand n w) = metadataOf w.
Proof.
  induction n as [|n IH]; [done|].
  unfold requeued in *. simpl.
  by rewrite QueueCheckpointForDeletion_metadata.
Qed.

Lemma requeued_queue cand n w q :
  deadQueue w = Some q ->
  deadQueue (requeued cand n w) = Some (q ++ replicate n cand).
Proof.
  intros Hq. induction n as [|n IH].
  - simpl. by rewrite app_nil_r.
  - unfold requeued in *. simpl.
    rewrite (QueueCheckpointForDeletion_queue _ _ _ IH).
    rewrite <- List.app_assoc. do 2 f_equal.
    change [cand] with (replicate 1 cand).
    rewrite <- replicate_add. by rewrite Nat.add_1_r.
Qed.

(** One pass of the body on a store whose oldest record has a next
    below the rollback point: the oldest id is queued, and nothing else
    is written. *)
Lemma queueOldBody_again earliest w md cand links nx :
  metadataOf w = Some md -> Oldest md = Some cand ->
  linksOf w cand = Some links -> Next links = Some nx ->
  Height nx < earliest ->
  queueOldBody earliest w
  = Done true (worldOf (QueueCheckpointForDeletion cand w)).
Proof.
  unfold metadataOf, linksOf. intros Hmd Hcand Hlinks Hnx Hlt.
  unfold queueOldBody, RestoreMetadata.
  rewrite bind_eq, GetData_eq, Hmd, Hcand.
  rewrite bind_eq. simpl Unmarshal. unfold ret at 1.
  rewrite bind_eq, GetData_eq, Hlinks, Hnx.
  rewrite bind_eq. simpl UnmarshalHeight. unfold ret at 1.
  assert ((earliest <=? Height nx) = false) as -> by (apply N.leb_gt; lia).
  by rewrite bind_eq, QueueCheckpointForDeletion_eq.
Qed.

(** C6, on the code: when the next of the oldest record is below the
    rollback point, [QueueOldCheckpointsForDeletion] has not returned
    after any number of rounds; the metadata in the store is the one it
    started with, and every round has put the same oldest id on the dead
    queue once more. *)
Theorem QueueOldCheckpointsForDeletion_spins earliest w md cand links nx :
  metadataOf w = Some md -> Oldest md = Some cand ->
  linksOf w cand = Some links -> Next links = Some nx ->
  Height nx < earliest ->
  forall fuel,
    QueueOldCheckpointsForDeletion fuel earliest w
    = OutOfFuel (requeued cand fuel w) /\
    metadataOf (requeued cand fuel w) = Some md /\
    (forall q, deadQueue w = Some q ->
       deadQueue (requeued cand fuel w) = Some (q ++ replicate fuel cand)).
Proof.
  intros Hmd Hcand Hlinks Hnx Hlt fuel.
  split; [|split].
  - revert w Hmd Hlinks. induction fuel as [|fuel IH]; intros w Hmd Hlinks.
    + done.
    + simpl QueueOldCheckpointsForDeletion.
      rewrite bind_eq, (queueOldBody_again _ _ md cand links nx) by done.
      rewrite requeued_S. apply IH.
      * by rewrite QueueCheckpointForDeletion_metadata.
      * by rewrite QueueCheckpointForDeletion_links.
  - by rewrite requeued_metadata.
  - intros q. apply requeued_queue.
Qed.

End Trim.

Module TrimSample.
Import RefCodec Sample RestoreSample.

Lemma QueueOldCheckpointsForDeletion_spins_witness :
  QueueOldCheckpointsForDeletion 3 12 wABC
  = OutOfFuel (requeued idA 3 wABC) /\
  metadataOf (requeued idA 3 wABC) = Some metaABC /\
  deadQueue (requeued idA 3 wABC) = Some [idA; idA; idA].
Proof.
  destruct (QueueOldCheckpointsForDeletion_spins (codec := ref) 12 wABC
              metaABC idA
              (mkLinks (Some idA) (Some idB)) idB
              ltac:(reflexivity) ltac:(reflexivity) ltac:(reflexivity)
              ltac:(reflexivity) ltac:(reflexivity) 3)
    as (Hrun & Hmeta & Hqueue).
  split; [exact Hrun|]. split; [exact Hmeta|].
  exact (Hqueue [] ltac:(reflexivity)).
Defined.

End TrimSample.

(** ** The reorg walk returns on a descending chain *)

Section ReorgReturns.

Context {codec : Codec}.

Lemma unlinkTip_links md tip prev w id :
  linksOf (unlinkTip md tip prev w) id = linksOf w id.
Proof.
  unfold unlinkTip. rewrite QueueCheckpointForDeletion_links.
  unfold linksOf. simpl.
  by rewrite lookup_insert_ne by apply metadata_not_links.
Qed.

Lemma onWalk_unlinkTip md tip l p w id :
  linksOf w tip = Some l -> Prev l = Some p ->
  onWalk (unlinkTip md tip p w) p id -> onWalk w tip id.
Proof.
  intros Hl Hp Hwalk. induction Hwalk as [|id l' p' _ IH Hl' Hp'].
  - by eapply walk_prev; [apply walk_tip| |].
  - rewrite unlinkTip_links in Hl'. by eapply walk_prev.
Qed.

Lemma reorgLoop_returns fuel client w md o n :
  (N.to_nat (Height n - Height o) < fuel)%nat ->
  walkDescends w o n ->
  exists w', reorgLoop fuel client md o n w = Done tt w'.
Proof.
  revert w md n. induction fuel as [|fuel IH]; intros w md n Hfuel Hdesc;
    [lia|].
  destruct (Height o <? Height n) eqn:Hlt.
  - destruct (client (Height n)) as [c|] eqn:Hc;
      [|simpl; rewrite Hlt, Hc; eauto].
    destruct (HeaderHash c =? HeaderHash n) eqn:Hhash;
      [simpl; rewrite Hlt, Hc, Hhash; eauto|].
    destruct (linksOf w n) as [l|] eqn:Hl.
    + apply N.ltb_lt in Hlt. apply N.eqb_neq in Hhash.
      destruct (Hdesc n l (walk_tip w n) Hlt Hl) as (p & Hp & Hlow).
      rewrite (reorgLoop_unlink fuel client md o n c l p) by done.
      apply IH; [lia|].
      intros id l' Hwalk Hid Hl'. rewrite unlinkTip_links in Hl'.
      apply (Hdesc id l'); [|done..].
      by eapply onWalk_unlinkTip.
    + simpl. rewrite Hlt, Hc, Hhash. unfold linksOf in Hl.
      rewrite bind_eq, GetData_eq, Hl. eauto.
  - simpl. rewrite Hlt. destruct (client (Height n)) as [c|]; [|eauto].
    destruct (negb (HeaderHash c =? HeaderHash n)); [|eauto].
    rewrite bind_eq. unfold DeleteMetadata, DeleteData.
    rewrite QueueCheckpointForDeletion_eq. eauto.
Qed.

(** On a store with metadata whose walk descends,
    [QueueReorgedCheckpointsForDeletion] returns once the loop bound
    exceeds the distance in height between the tip and the oldest id. *)
Lemma QueueReorgedCheckpointsForDeletion_returns fuel client w md o n :
  len0 (data w !! lit "metadata") = false ->
  metadataOf w = Some md ->
  Oldest md = Some o -> Newest md = Some n ->
  walkDescends w o n ->
  (N.to_nat (Height n - Height o) < fuel)%nat ->
  exists w', QueueReorgedCheckpointsForDeletion fuel client w = Done tt w'.
Proof.
  intros Hlen Hmd Ho Hn Hdesc Hfuel.
  rewrite (QueueReorged_start _ _ _ md o n) by done.
  by apply reorgLoop_returns.
Qed.

End ReorgReturns.

(** ** The scenarios of the specification, run on the reference codec *)

Module Scenarios.
Import RefCodec Sample RestoreSample ReorgSample.

Example single_save_restores :
  HasCheckpointedState wA = Done true wA /\
  RestoreLatestState 1 (fun h => Some (mkBlockId h 1))
    (expectContents [x78]) wA = Done None wA.
Proof. split; reflexivity. Qed.

Example chain_restores_tip :
  RestoreLatestState 1 (fun _ => Some idC) (expectContents [x7a]) wABC
  = Done None wABC /\
  metadataOf wABC = Some metaABC.
Proof. split; reflexivity. Qed.

Example reorg_restores_previous :
  RestoreLatestState 2 clientReorg12 (expectContents [x79]) wABC
  = Done None (unlinkTip metaABC idC idB wABC) /\
  deadQueue (unlinkTip metaABC idC idB wABC) = Some [idC].
Proof. split; reflexivity. Qed.

Example full_reorg_empties_store :
  let restore :=
    RestoreLatestState 1 (fun h => Some (mkBlockId h 99))
      (expectContents [x78]) wA in
  let tick := deleteSomeOldCheckpoints (worldOf restore) in
  restore = Done (Some ErrNoCheckpoints) (worldOf restore) /\
  data (worldOf restore) !! lit "metadata" = None /\
  deadQueue (worldOf restore) = Some [idA] /\
  tick = Done tt (worldOf tick) /\
  deadQueue (worldOf tick) = Some [] /\
  data (worldOf tick) !! getManifestKey idA = None /\
  data (worldOf tick) !! getContentsKey idA = None /\
  data (worldOf tick) !! getLinksKey idA = None.
Proof. repeat split; vm_compute; reflexivity. Qed.

Example wABC_walk_descends : walkDescends wABC idA idC.
Proof.
  assert (Hwalk : forall id, onWalk wABC idC id ->
            id = idC \/ id = idB \/ id = idA).
  { intros id Hw. induction Hw as [|id l p _ IH Hl Hp]; [by left|].
    destruct IH as [->|[->| ->]]; vm_compute in Hl;
      injection Hl as <-; injection Hp as <-; auto. }
  intros id l Hw Hlt Hl.
  destruct (Hwalk id Hw) as [->|[->| ->]]; vm_compute in Hl;
    injection Hl as <-; eauto.
Qed.

End Scenarios.

(** ** More on the keys *)

Section KeyFamilies.

Context {codec : Codec}.

(** X1: the keys of the store never collide.  Within one family
    (manifest, contents, links) two ids share a key only when they are
    the same id, and no key of one family is a key of another family or
    one of the two fixed keys [metadata] and [deadqueue]. *)
Theorem checkpoint_keys_distinct a b :
  (getManifestKey a = getManifestKey b -> a = b) /\
  (getContentsKey a = getContentsKey b -> a = b) /\
  (getLinksKey a = getLinksKey b -> a = b) /\
  getManifestKey a <> getContentsKey b /\
  getManifestKey a <> getLinksKey b /\
  getContentsKey a <> getLinksKey b /\
  lit "metadata" <> lit "deadqueue" /\
  (forall key, key = getManifestKey a \/ key = getContentsKey a \/
               key = getLinksKey a ->
     key <> lit "metadata" /\ key <> lit "deadqueue").
Proof.
  split; [apply getKeyForId_inj|]. split; [apply getKeyForId_inj|].
  split; [apply getKeyForId_inj|].
  split; [apply manifest_not_contents|].
  split; [apply manifest_not_links|].
  split; [apply contents_not_links|].
  split; [apply metadata_not_deadqueue|].
  intros key [->|[->| ->]]; split; intros E; symmetry in E; revert E.
  - apply metadata_not_manifest.
  - apply deadqueue_not_manifest.
  - apply metadata_not_contents.
  - apply deadqueue_not_contents.
  - apply metadata_not_links.
  - apply deadqueue_not_links.
Qed.

End KeyFamilies.

(** ** More on saving *)

Section SaveMore.

Context {codec : Codec}.

(** Only the zero value of the metadata may be encoded by zero bytes. *)
Lemma marshalMetadata_not_nil md :
  md <> emptyMetadata -> marshalMetadata md <> [].
Proof.
  intros Hmd Hnil.
  pose proof (unmarshal_marshal_Metadata md) as Hrt.
  rewrite Hnil, unmarshalMetadata_nil in Hrt.
  injection Hrt as <-. by apply Hmd.
Qed.

(** X2: [_saveCheckpoint] returns an error exactly when the metadata key
    holds bytes that are not empty and do not decode; the error is the
    one of the decoder and nothing has been written.  The job of
    [AsyncSaveCheckpoint] drops that error: on such a store it returns
    as if the save had been done. *)
Theorem _saveCheckpoint_error_iff id contents ctx w :
  (len0 (data w !! lit "metadata") = false /\ metadataOf w = None ->
     _saveCheckpoint id contents ctx w = Done (Some ErrUnmarshal) w /\
     saveCheckpointJob id contents ctx w = Done tt w) /\
  (forall e w', _saveCheckpoint id contents ctx w = Done (Some e) w' ->
     e = ErrUnmarshal /\ w' = w /\
     len0 (data w !! lit "metadata") = false /\ metadataOf w = None).
Proof.
  split.
  - intros [Hlen Hmd].
    assert (Hrun : _saveCheckpoint id contents ctx w
                   = Done (Some ErrUnmarshal) w).
    { rewrite _saveCheckpoint_unfold. unfold metadataForSave.
      by rewrite Hlen, Hmd. }
    split; [done|]. unfold saveCheckpointJob. by rewrite bind_eq, Hrun.
  - intros e w'. rewrite _saveCheckpoint_unfold. unfold metadataForSave.
    destruct (len0 (data w !! lit "metadata")) eqn:Hlen.
    + simpl. destruct (SaveCheckpoint _ _ _ _ _ _ _); congruence.
    + destruct (metadataOf w) as [md|] eqn:Hmd.
      * destruct (Newest md) as [tip|]; [|congruence].
        destruct (SaveCheckpoint _ _ _ _ _ _ _); congruence.
      * intros [= <- <-]. done.
Qed.

Lemma forEach_checkpointMachine_fail_data machs w :
  forallb checkpointable machs = false ->
  exists w', forEach machs checkpointMachine w = Crash w' /\
    data w' = data w.
Proof.
  revert w. induction machs as [|[h ok] machs IH]; intros w Hok; simpl in *.
  - done.
  - unfold bind at 1, checkpointMachine, bind, Checkpoint. simpl.
    destruct ok; simpl in *.
    + edestruct IH as (w' & Hw' & Hdata); [exact Hok|]. rewrite Hw'.
      eexists. split; [done|]. by rewrite Hdata.
    + unfold crash. eauto.
Qed.

(** X3: when one of the machines cannot be written, [_saveCheckpoint]
    ends the process inside [SaveCheckpoint] before any record of the
    new id is written: no manifest, contents or links key has changed.
    On a store without metadata the first metadata has been written by
    then, so the store left behind names a checkpoint it has no record
    of, and [HasCheckpointedState] holds on it. *)
Theorem _saveCheckpoint_machine_failure id contents ctx w md tip :
  metadataForSave w id = Some md -> Newest md = Some tip ->
  forallb checkpointable (ctxMachines ctx) = false ->
  exists w', _saveCheckpoint id contents ctx w = Crash w' /\
    (forall key, key <> lit "metadata" -> data w' !! key = data w !! key) /\
    (len0 (data w !! lit "metadata") = false -> data w' = data w) /\
    (len0 (data w !! lit "metadata") = true ->
       metadataOf w' = Some (mkMetadata 1 (Some id) (Some id)) /\
       HasCheckpointedState w' = Done true w').
Proof.
  intros Hmd Htip Hfail.
  rewrite _saveCheckpoint_unfold, Hmd, Htip.
  unfold SaveCheckpoint. rewrite bind_eq, forEach_SaveValue, bind_eq.
  edestruct forEach_checkpointMachine_fail_data as (w' & -> & Hdata);
    [exact Hfail|].
  exists w'. split; [done|]. simpl in Hdata.
  unfold metadataOf, HasCheckpointedState, RestoreMetadata.
  rewrite bind_eq, GetData_eq, Hdata.
  unfold startWorld.
  destruct (len0 (data w !! lit "metadata")) eqn:Hlen; simpl.
  - split; [intros key Hkey; by rewrite lookup_insert_ne|].
    split; [done|]. intros _. rewrite lookup_insert_eq.
    unfold protoUnmarshal. simpl. rewrite unmarshal_marshal_Metadata.
    split; [done|]. unfold ret. do 2 f_equal.
    apply negb_true_iff, bool_decide_eq_false, marshalMetadata_not_nil.
    done.
  - split; [done|]. split; [done|]. done.
Qed.

(** X4: a committed save never moves the oldest id: on a store with
    metadata the format version and the oldest id stay as they were and
    only the newest id changes; on a store without metadata the new
    metadata has version 1 and the saved id as oldest and newest. *)
Theorem _saveCheckpoint_keeps_oldest id contents ctx w w' :
  _saveCheckpoint id contents ctx w = Done None w' ->
  (len0 (data w !! lit "metadata") = true ->
     metadataOf w' = Some (mkMetadata 1 (Some id) (Some id))) /\
  (len0 (data w !! lit "metadata") = false ->
     exists md, metadataOf w = Some md /\
       metadataOf w'
       = Some (mkMetadata (FormatVersion md) (Oldest md) (Some id))).
Proof.
  intros Hrun.
  destruct (_saveCheckpoint_inv _ _ _ _ _ Hrun)
    as (md & tip & old & Hmd & Htip & Hok & Hold).
  rewrite (_saveCheckpoint_commits _ _ _ _ md tip old) in Hrun by done.
  injection Hrun as <-.
  unfold metadataForSave in Hmd. unfold metadataOf at 1 3. simpl.
  rewrite lookup_insert_eq. unfold protoUnmarshal. simpl.
  rewrite unmarshal_marshal_Metadata.
  split; intros Hlen; rewrite Hlen in Hmd.
  - by injection Hmd as <-.
  - eauto.
Qed.

(** X5: what was saved can be restored.  After a committed save of [id]
    the manifest key of [id] holds the encoded manifest and the contents
    key holds the contents; when the oldest height is not above the
    height of [id], [RestoreCheckpoint id] returns these contents with
    the restore context and no error.  When [id] lies below the oldest
    height the same call returns none, although the save has made [id]
    the newest id. *)
Theorem _saveCheckpoint_then_restore id contents ctx w w' md o :
  _saveCheckpoint id contents ctx w = Done None w' ->
  metadataForSave w id = Some md -> Oldest md = Some o ->
  data w' !! getManifestKey id = Some (marshalManifest (ctxManifest ctx)) /\
  data w' !! getContentsKey id = Some contents /\
  (Height o <= Height id ->
     RestoreCheckpoint id w' = Done (Some contents, Some rcp, None) w') /\
  (Height id < Height o ->
     RestoreCheckpoint id w' = Done (None, None, None) w').
Proof.
  intros Hrun Hmd Ho.
  destruct (_saveCheckpoint_inv _ _ _ _ _ Hrun)
    as (md' & tip & old & Hmd' & Htip & Hok & Hold).
  assert (md' = md) as -> by congruence.
  rewrite (_saveCheckpoint_commits _ _ _ _ md tip old) in Hrun by done.
  injection Hrun as <-.
  assert (Hmanifest :
    forall d : gmap bytes bytes,
      <[lit "metadata" := marshalMetadata (lastMetadata md id)]>
        (<[getLinksKey id := marshalLinks (mkLinks (Some tip) (Some id))]>
           (<[getLinksKey tip := marshalLinks (mkLinks (Prev old) (Some id))]>
              (<[getContentsKey id := contents]>
                 (<[getManifestKey id := marshalManifest (ctxManifest ctx)]>
                    d)))) !! getManifestKey id
      = Some (marshalManifest (ctxManifest ctx))).
  { intros d.
    rewrite lookup_insert_ne by apply metadata_not_manifest.
    rewrite lookup_insert_ne
      by (intros E; symmetry in E; by apply manifest_not_links in E).
    rewrite lookup_insert_ne
      by (intros E; symmetry in E; by apply manifest_not_links in E).
    rewrite lookup_insert_ne
      by (intros E; symmetry in E; by apply manifest_not_contents in E).
    apply lookup_insert_eq. }
  assert (Hcontents :
    forall d : gmap bytes bytes,
      <[lit "metadata" := marshalMetadata (lastMetadata md id)]>
        (<[getLinksKey id := marshalLinks (mkLinks (Some tip) (Some id))]>
           (<[getLinksKey tip := marshalLinks (mkLinks (Prev old) (Some id))]>
              (<[getContentsKey id := contents]> d))) !! getContentsKey id
      = Some contents).
  { intros d.
    rewrite lookup_insert_ne by apply metadata_not_contents.
    rewrite lookup_insert_ne
      by (intros E; symmetry in E; by apply contents_not_links in E).
    rewrite lookup_insert_ne
      by (intros E; symmetry in E; by apply contents_not_links in E).
    apply lookup_insert_eq. }
  split; [apply Hmanifest|]. split; [apply Hcontents|].
  set (w' := mkWorld _ _ _ _).
  assert (Hst : metadataState w' = MetaRange o id).
  { unfold metadataState, w'. simpl. rewrite lookup_insert_eq.
    rewrite unmarshal_marshal_Metadata. simpl. by rewrite Ho. }
  split.
  - intros Hle. rewrite RestoreCheckpoint_eq, Hst.
    rewrite out_of_range_false by (done || lia).
    unfold w' at 1. simpl. by rewrite Hcontents.
  - intros Hlt. rewrite RestoreCheckpoint_eq, Hst.
    by rewrite out_of_range_true by (by left).
Qed.

(** X6: a committed save of [id] leaves the records of the other ids
    alone: their manifests and contents are untouched, their links are
    untouched except for the links of the previous tip, and the dead
    queue is untouched. *)
Theorem _saveCheckpoint_frame id contents ctx w w' other :
  _saveCheckpoint id contents ctx w = Done None w' ->
  other <> id ->
  data w' !! getManifestKey other = data w !! getManifestKey other /\
  data w' !! getContentsKey other = data w !! getContentsKey other /\
  (prevTip w id <> Some other ->
     data w' !! getLinksKey other = data w !! getLinksKey other) /\
  data w' !! lit "deadqueue" = data w !! lit "deadqueue".
Proof.
  intros Hrun Hother.
  destruct (_saveCheckpoint_inv _ _ _ _ _ Hrun)
    as (md & tip & old & Hmd & Htip & Hok & Hold).
  rewrite (_saveCheckpoint_commits _ _ _ _ md tip old) in Hrun by done.
  injection Hrun as <-. simpl.
  assert (Hstart : forall key, key <> lit "metadata" ->
            data (startWorld w id) !! key = data w !! key).
  { intros key Hkey. unfold startWorld.
    destruct (len0 (data w !! lit "metadata")); simpl; [|done].
    by rewrite lookup_insert_ne. }
  assert (Hprev : prevTip w id = Some tip).
  { unfold prevTip. by rewrite Hmd. }
  split; [|split; [|split]].
  - rewrite lookup_insert_ne by apply metadata_not_manifest.
    rewrite !lookup_insert_ne
      by (intros E; symmetry in E; by apply manifest_not_links in E).
    rewrite lookup_insert_ne
      by (intros E; symmetry in E; by apply manifest_not_contents in E).
    rewrite lookup_insert_ne
      by (intros E; by apply getKeyForId_inj in E).
    apply Hstart. intros E. symmetry in E.
    by apply metadata_not_manifest in E.
  - rewrite lookup_insert_ne by apply metadata_not_contents.
    rewrite !lookup_insert_ne
      by (intros E; symmetry in E; by apply contents_not_links in E).
    rewrite lookup_insert_ne by (intros E; by apply getKeyForId_inj in E).
    rewrite lookup_insert_ne by apply manifest_not_contents.
    apply Hstart. intros E. symmetry in E.
    by apply metadata_not_contents in E.
  - intros Hnot. rewrite Hprev in Hnot.
    rewrite lookup_insert_ne by apply metadata_not_links.
    rewrite lookup_insert_ne by (intros E; by apply getKeyForId_inj in E).
    rewrite lookup_insert_ne
      by (intros E; apply getKeyForId_inj in E; congruence).
    rewrite lookup_insert_ne by apply contents_not_links.
    rewrite lookup_insert_ne by apply manifest_not_links.
    apply Hstart. intros E. symmetry in E.
    by apply metadata_not_links in E.
  - rewrite lookup_insert_ne by apply metadata_not_deadqueue.
    rewrite !lookup_insert_ne
      by (intros E; symmetry in E; by apply deadqueue_not_links in E).
    rewrite lookup_insert_ne
      by (intros E; symmetry in E; by apply deadqueue_not_contents in E).
    rewrite lookup_insert_ne
      by (intros E; symmetry in E; by apply deadqueue_not_manifest in E).
    apply Hstart. intros E. symmetry in E.
    by apply metadata_not_deadqueue in E.
Qed.

(** X7: after every committed save [HasCheckpointedState] is true. *)
Theorem _saveCheckpoint_has_state id contents ctx w w' :
  _saveCheckpoint id contents ctx w = Done None w' ->
  HasCheckpointedState w' = Done true w'.
Proof.
  intros Hrun.
  destruct (_saveCheckpoint_inv _ _ _ _ _ Hrun)
    as (md & tip & old & Hmd & Htip & Hok & Hold).
  rewrite (_saveCheckpoint_commits _ _ _ _ md tip old) in Hrun by done.
  injection Hrun as <-.
  unfold HasCheckpointedState, RestoreMetadata.
  rewrite bind_eq, GetData_eq. simpl. rewrite lookup_insert_eq.
  unfold ret. do 2 f_equal. simpl.
  apply negb_true_iff, bool_decide_eq_false, marshalMetadata_not_nil.
  done.
Qed.

End SaveMore.

(** ** More on the links, the dead queue and its collection *)

Section LinksMore.

Context {codec : Codec}.

(** X8: [_updateNextPointer] and [_updatePrevPointer] rewrite one
    pointer of a links record and keep the other; both write the links
    key of the id and no other key; one after the other they leave the
    data [_setBothPointers] leaves; and on links that do not decode both
    end the process with nothing written.  An absent links key decodes
    to a record without pointers, so the update creates the record. *)
Theorem pointer_updates id p n w :
  (forall l, linksOf w id = Some l ->
     exists w1 w2 w3,
       _updateNextPointer id n w = Done tt w1 /\
       linksOf w1 id = Some (mkLinks (Prev l) (Some n)) /\
       (forall key, key <> getLinksKey id -> data w1 !! key = data w !! key) /\
       _updatePrevPointer id p w = Done tt w2 /\
       linksOf w2 id = Some (mkLinks (Some p) (Next l)) /\
       (forall key, key <> getLinksKey id -> data w2 !! key = data w !! key) /\
       (_updatePrevPointer id p ;;; _updateNextPointer id n) w = Done tt w3 /\
       data w3 = data (worldOf (_setBothPointers id p n w))) /\
  (linksOf w id = None ->
     _updateNextPointer id n w = Crash w /\
     _updatePrevPointer id p w = Crash w) /\
  (data w !! getLinksKey id = None -> linksOf w id = Some emptyLinks).
Proof.
  unfold linksOf. split; [|split].
  - intros l Hl.
    assert (Hn : _updateNextPointer id n w
                 = Done tt (mkWorld
                     (<[getLinksKey id :=
                          marshalLinks (mkLinks (Prev l) (Some n))]> (data w))
                     (values w) (machines w)
                     (events w ++ [EvSaveData (getLinksKey id)
                        (marshalLinks (mkLinks (Prev l) (Some n)))]))).
    { unfold _updateNextPointer. by rewrite bind_eq, GetData_eq, Hl. }
    assert (Hp : _updatePrevPointer id p w
                 = Done tt (mkWorld
                     (<[getLinksKey id :=
                          marshalLinks (mkLinks (Some p) (Next l))]> (data w))
                     (values w) (machines w)
                     (events w ++ [EvSaveData (getLinksKey id)
                        (marshalLinks (mkLinks (Some p) (Next l)))]))).
    { unfold _updatePrevPointer. by rewrite bind_eq, GetData_eq, Hl. }
    do 3 eexists.
    split; [exact Hn|]. simpl. rewrite lookup_insert_eq.
    unfold protoUnmarshal at 1. simpl. rewrite unmarshal_marshal_Links.
    split; [done|].
    split; [intros key Hkey; by rewrite lookup_insert_ne|].
    split; [exact Hp|]. simpl. rewrite lookup_insert_eq.
    unfold protoUnmarshal at 1. simpl. rewrite unmarshal_marshal_Links.
    split; [done|].
    split; [intros key Hkey; by rewrite lookup_insert_ne|].
    rewrite bind_eq, Hp. unfold _updateNextPointer.
    rewrite bind_eq, GetData_eq. simpl. rewrite lookup_insert_eq.
    unfold protoUnmarshal. simpl. rewrite unmarshal_marshal_Links. simpl.
    split; [done|]. simpl. by rewrite insert_insert_eq.
  - intros Hl. unfold _updateNextPointer, _updatePrevPointer.
    by rewrite !bind_eq, GetData_eq, Hl.
  - intros ->. apply unmarshalLinks_nil.
Qed.

(** X9: [QueueCheckpointForDeletion] is best effort.  It always returns;
    it appends the id at the tail of a dead queue that decodes, the
    queue of an absent key being the empty one; it does nothing at all
    when the queue does not decode; and it never touches a value, a
    machine or a key other than [deadqueue]. *)
Theorem QueueCheckpointForDeletion_best_effort blockId w :
  exists w', QueueCheckpointForDeletion blockId w = Done tt w' /\
    values w' = values w /\ machines w' = machines w /\
    (forall key, key <> lit "deadqueue" -> data w' !! key = data w !! key) /\
    (forall q, deadQueue w = Some q -> deadQueue w' = Some (q ++ [blockId])) /\
    (deadQueue w = None -> w' = w) /\
    (data w !! lit "deadqueue" = None -> deadQueue w' = Some [blockId]).
Proof.
  exists (worldOf (QueueCheckpointForDeletion blockId w)).
  split; [by rewrite QueueCheckpointForDeletion_eq|].
  split; [rewrite QueueCheckpointForDeletion_eq; simpl;
          by destruct (deadQueue w)|].
  split; [rewrite QueueCheckpointForDeletion_eq; simpl;
          by destruct (deadQueue w)|].
  split; [intros key; apply QueueCheckpointForDeletion_other|].
  split; [intros q; apply QueueCheckpointForDeletion_queue|].
  split.
  - intros Hq. rewrite QueueCheckpointForDeletion_eq. simpl. by rewrite Hq.
  - intros Hnone.
    apply (QueueCheckpointForDeletion_queue blockId w []).
    unfold deadQueue. rewrite Hnone. apply unmarshalQueue_nil.
Qed.

End LinksMore.

Section GCMore.

Context {codec : Codec}.

Lemma releaseAll_difference hs (m : gmultiset Hash) :
  releaseAll hs m = m ∖ list_to_set_disj hs.
Proof.
  revert m. induction hs as [|h hs IH]; intros m; simpl.
  - multiset_solver.
  - unfold releaseAll in *. simpl. rewrite IH. multiset_solver.
Qed.


(** [DeleteOneOldCheckpoint] without a manifest that decodes. *)
Lemma DeleteOneOldCheckpoint_skip blockId w :
  (forall raw, data w !! getManifestKey blockId = Some raw ->
     unmarshalManifest raw = None) ->
  DeleteOneOldCheckpoint blockId w = Done tt w.
Proof.
  intros Hskip. unfold DeleteOneOldCheckpoint.
  rewrite bind_eq, GetData_eq.
  destruct (data w !! getManifestKey blockId) as [raw|]; [|done].
  by rewrite (Hskip raw).
Qed.

(** X10: [DeleteOneOldCheckpoint] can be repeated.  It always returns,
    and a second call on the store it leaves changes nothing, so no
    value or machine is released twice for one entry.  Without a
    manifest that decodes the first call changes nothing either, and a
    contents or links record of that id stays in the store. *)
Theorem DeleteOneOldCheckpoint_twice blockId w :
  exists w1, DeleteOneOldCheckpoint blockId w = Done tt w1 /\
    DeleteOneOldCheckpoint blockId w1 = Done tt w1 /\
    ((forall raw, data w !! getManifestKey blockId = Some raw ->
        unmarshalManifest raw = None) -> w1 = w).
Proof.
  destruct (data w !! getManifestKey blockId) as [raw|] eqn:Hraw.
  - destruct (unmarshalManifest raw) as [m|] eqn:Hm.
    + eexists. split; [by eapply DeleteOneOldCheckpoint_present|]. split.
      * apply DeleteOneOldCheckpoint_skip. simpl. intros raw'.
        rewrite !lookup_delete_ne by discriminate.
        by rewrite lookup_delete_eq.
      * intros Hskip. specialize (Hskip raw eq_refl). congruence.
    + exists w.
      assert (Hskip : forall raw', Some raw = Some raw' ->
                unmarshalManifest raw' = None) by (by intros ? [= <-]).
      rewrite <- Hraw in Hskip.
      by rewrite DeleteOneOldCheckpoint_skip.
  - exists w.
    assert (Hskip : forall raw', data w !! getManifestKey blockId = Some raw' ->
              unmarshalManifest raw' = None) by (by rewrite Hraw).
    by rewrite DeleteOneOldCheckpoint_skip.
Qed.

(** X11: what [DeleteOneOldCheckpoint] removes.  When the manifest of
    the id is there and decodes, the call returns with the manifest,
    contents and links keys of the id absent, every other key as it
    was, and the reference counts of the values and machines lowered by
    the hashes the manifest lists, each as often as it is listed. *)
Theorem DeleteOneOldCheckpoint_effect blockId raw m w :
  data w !! getManifestKey blockId = Some raw ->
  unmarshalManifest raw = Some m ->
  exists w1, DeleteOneOldCheckpoint blockId w = Done tt w1 /\
    data w1 !! getManifestKey blockId = None /\
    data w1 !! getContentsKey blockId = None /\
    data w1 !! getLinksKey blockId = None /\
    (forall key, ~ recordKeyOf blockId key -> data w1 !! key = data w !! key) /\
    values w1 = values w ∖ list_to_set_disj (Values m) /\
    machines w1 = machines w ∖ list_to_set_disj (Machines m).
Proof.
  intros Hraw Hm. eexists.
  split; [by eapply DeleteOneOldCheckpoint_present|]. simpl.
  split; [|split; [|split; [|split; [|split]]]].
  - rewrite !lookup_delete_ne by discriminate. apply lookup_delete_eq.
  - rewrite lookup_delete_ne by discriminate. apply lookup_delete_eq.
  - apply lookup_delete_eq.
  - intros key Hkey. unfold recordKeyOf in Hkey.
    rewrite !lookup_delete_ne; [done|..]; intros E; apply Hkey; auto.
  - apply releaseAll_difference.
  - apply releaseAll_difference.
Qed.


Lemma DeleteOneOldCheckpoint_frame blockId w :
  exists w1, DeleteOneOldCheckpoint blockId w = Done tt w1 /\
    forall key, ~ recordKeyOf blockId key -> data w1 !! key = data w !! key.
Proof.
  destruct (data w !! getManifestKey blockId) as [raw|] eqn:Hraw.
  - destruct (unmarshalManifest raw) as [m|] eqn:Hm.
    + eexists. split; [by eapply DeleteOneOldCheckpoint_present|]. simpl.
      intros key Hkey. unfold recordKeyOf in Hkey.
      rewrite !lookup_delete_ne; [done|..]; intros E; apply Hkey; auto.
    + exists w. split; [|done]. apply DeleteOneOldCheckpoint_skip.
      intros raw'. rewrite Hraw. by intros [= <-].
  - exists w. split; [|done]. apply DeleteOneOldCheckpoint_skip.
    intros raw'. by rewrite Hraw.
Qed.

Lemma deleteLoop_frame n queue w :
  (n <= length queue)%nat ->
  exists w', deleteLoop n queue w = Done (drop n queue) w' /\
    forall key, (forall id, id ∈ take n queue -> ~ recordKeyOf id key) ->
      data w' !! key = data w !! key.
Proof.
  revert queue w. induction n as [|n IH]; intros queue w Hn.
  - exists w. by rewrite drop_0.
  - destruct queue as [|blockId rest]; [simpl in Hn; lia|].
    simpl in Hn.
    destruct (DeleteOneOldCheckpoint_frame blockId w) as (w1 & H1 & Hf1).
    destruct (IH rest w1 ltac:(lia)) as (w2 & H2 & Hf2).
    exists w2. simpl. rewrite bind_eq, H1, H2. split; [done|].
    intros key Hkey. rewrite Hf2, Hf1; [done| |].
    + apply Hkey. left.
    + intros id Hid. apply Hkey. by right.
Qed.

(** X13: a tick of the collector always returns: it never indexes past
    the end of the queue.  It deletes only records of the entries it
    takes from the head of the queue: the metadata and every record key
    of any other id are as they were.  On a queue that does not decode
    it does nothing. *)
Theorem deleteSomeOldCheckpoints_frame w :
  exists w', deleteSomeOldCheckpoints w = Done tt w' /\
    data w' !! lit "metadata" = data w !! lit "metadata" /\
    (forall q key, deadQueue w = Some q ->
       (forall id, id ∈ take (numToDelete (length q)) q ->
          ~ recordKeyOf id key) ->
       key <> lit "deadqueue" ->
       data w' !! key = data w !! key) /\
    (deadQueue w = None -> w' = w).
Proof.
  unfold deleteSomeOldCheckpoints, deadQueue.
  rewrite bind_eq, GetData_eq.
  destruct (protoUnmarshal unmarshalQueue (data w !! lit "deadqueue"))
    as [q|] eqn:Hq.
  - destruct (deleteLoop_frame (numToDelete (length q)) q w
                (numToDelete_le _)) as (w1 & H1 & Hf).
    rewrite bind_eq, H1. eexists. split; [done|]. simpl.
    split; [|split; [|done]].
    + rewrite lookup_insert_ne
        by (intros E; symmetry in E; by apply metadata_not_deadqueue in E).
      apply Hf. intros id _ [E|[E|E]]; revert E.
      * apply metadata_not_manifest.
      * apply metadata_not_contents.
      * apply metadata_not_links.
    + intros q' key [= <-] Hkey Hne.
      rewrite lookup_insert_ne by done. by apply Hf.
  - exists w. done.
Qed.

Lemma ticks_S n w :
  ticks (S n) w = ticks n (worldOf (deleteSomeOldCheckpoints w)).
Proof. unfold ticks. by rewrite Nat.iter_succ_r. Qed.

Lemma numToDelete_pos n : (0 < n)%nat -> (0 < numToDelete n)%nat.
Proof.
  intros Hn. rewrite numToDelete_floor.
  destruct (n =? 0)%nat eqn:E; [apply Nat.eqb_eq in E; lia | lia].
Qed.

(** X14: the collector drains the dead queue.  A queue of [len] entries
    that decodes is empty after [len] ticks (each tick on a queue that
    is not empty removes at least one entry), and stays empty under
    further ticks. *)
Theorem ticks_drain_queue n w q :
  deadQueue w = Some q -> (length q <= n)%nat ->
  deadQueue (ticks n w) = Some [].
Proof.
  revert w q. induction n as [|n IH]; intros w q Hq Hlen.
  - destruct q; [done | simpl in Hlen; lia].
  - rewrite ticks_S.
    destruct (deleteSomeOldCheckpoints_queue w q Hq) as (w' & Hrun & Hq').
    rewrite Hrun. simpl. apply (IH _ _ Hq').
    rewrite length_drop.
    destruct q as [|id rest]; [simpl; lia|].
    pose proof (numToDelete_pos (length (id :: rest)) ltac:(simpl; lia)).
    simpl in *. lia.
Qed.

End GCMore.

(** ** More on the reorg walk, restoring and trimming *)

(** Runs a call through its binds and reads. *)
Ltac run :=
  repeat first
    [ rewrite bind_eq
    | rewrite GetData_eq
    | progress (cbn [Unmarshal UnmarshalHeight ret crash worldOf]) ].

Section ReorgMore.

Context {codec : Codec}.

Lemma metadata_key_present w :
  len0 (data w !! lit "metadata") = false ->
  exists raw, data w !! lit "metadata" = Some raw /\ raw <> [].
Proof.
  destruct (data w !! lit "metadata") as [raw|]; [|done].
  simpl. intros Hraw. apply bool_decide_eq_false in Hraw. eauto.
Qed.

Lemma QueueCheckpointForDeletion_done blockId w :
  QueueCheckpointForDeletion blockId w
  = Done tt (worldOf (QueueCheckpointForDeletion blockId w)).
Proof. by rewrite QueueCheckpointForDeletion_eq. Qed.

(** The walk stops at once on a tip the client confirms or cannot
    answer for. *)
Lemma QueueReorged_stops fuel client w md o n :
  len0 (data w !! lit "metadata") = false ->
  metadataOf w = Some md ->
  Oldest md = Some o -> Newest md = Some n ->
  (client (Height n) = None \/
   exists c, client (Height n) = Some c /\ HeaderHash c = HeaderHash n) ->
  QueueReorgedCheckpointsForDeletion (S fuel) client w = Done tt w.
Proof.
  intros Hlen Hmd Ho Hn Hclient.
  rewrite (QueueReorged_start _ _ _ md o n) by done. simpl.
  destruct Hclient as [Hc|(c & Hc & Hhash)]; rewrite Hc.
  - by destruct (Height o <? Height n).
  - apply N.eqb_eq in Hhash. rewrite Hhash.
    by destruct (Height o <? Height n).
Qed.

(** What [RestoreLatestState] does once the walk has returned with a
    store whose metadata decodes to a range. *)
Lemma RestoreLatestState_after_walk fuel client unmarshalFunc w w' md o n :
  QueueReorgedCheckpointsForDeletion fuel client w = Done tt w' ->
  len0 (data w' !! lit "metadata") = false ->
  metadataOf w' = Some md ->
  Oldest md = Some o -> Newest md = Some n ->
  Height o <= Height n ->
  RestoreLatestState fuel client unmarshalFunc w
  = unmarshalFunc (data w' !! getContentsKey n) (Some rcp) w'.
Proof.
  intros Hwalk Hlen Hmd Ho Hn Hle.
  unfold RestoreLatestState. rewrite bind_eq, Hwalk.
  unfold RestoreMetadata, HasCheckpointedState, RestoreMetadata.
  rewrite bind_eq, GetData_eq, !bind_eq, GetData_eq. unfold ret at 1.
  rewrite Hlen. simpl. unfold metadataOf in Hmd. rewrite Hmd.
  rewrite bind_eq, Hn. simpl. unfold ret at 1.
  rewrite bind_eq, RestoreCheckpoint_eq.
  destruct (metadata_key_present w' Hlen) as (raw & Hraw & _).
  rewrite (metadataState_range w' raw md o n); try done.
  - by rewrite out_of_range_false by (done || lia).
  - by rewrite Hraw in Hmd.
Qed.

(** X15: [RestoreLatestState] hands the newest checkpoint to the restore
    function.  On a store whose metadata decodes to a range (oldest
    height not above the newest), when the chain client confirms the
    header hash of the newest id, and also when the client answers with
    an error, the call is the call of the restore function on the bytes
    under the contents key of the newest id and on the restore context,
    in the unchanged store: an unreachable chain does not block a
    restore. *)
Theorem RestoreLatestState_hands_tip fuel client unmarshalFunc w md o n :
  len0 (data w !! lit "metadata") = false ->
  metadataOf w = Some md ->
  Oldest md = Some o -> Newest md = Some n ->
  Height o <= Height n ->
  (client (Height n) = None \/
   exists c, client (Height n) = Some c /\ HeaderHash c = HeaderHash n) ->
  RestoreLatestState (S fuel) client unmarshalFunc w
  = unmarshalFunc (data w !! getContentsKey n) (Some rcp) w.
Proof.
  intros Hlen Hmd Ho Hn Hle Hclient.
  apply (RestoreLatestState_after_walk _ _ _ _ _ md o n); try done.
  by apply (QueueReorged_stops _ _ _ md o n).
Qed.

(** X16: [RestoreLatestState] surfaces a metadata record that does not
    decode: it returns the error of the decoder, without calling the
    restore function and without writing anything. *)
Theorem RestoreLatestState_corrupt_metadata fuel client unmarshalFunc w :
  len0 (data w !! lit "metadata") = false ->
  metadataOf w = None ->
  RestoreLatestState fuel client unmarshalFunc w = Done (Some ErrUnmarshal) w.
Proof.
  unfold metadataOf. intros Hlen Hmd.
  unfold RestoreLatestState, QueueReorgedCheckpointsForDeletion,
    HasCheckpointedState, RestoreMetadata.
  rewrite !bind_eq, GetData_eq, Hlen, Hmd. unfold ret at 1.
  rewrite !bind_eq, GetData_eq. unfold ret at 1.
  rewrite !bind_eq, GetData_eq. unfold ret at 1.
  by rewrite Hlen, Hmd.
Qed.

Lemma sameRecords_refl w : sameRecords w w.
Proof. by repeat split. Qed.

Lemma sameRecords_trans w1 w2 w3 :
  sameRecords w1 w2 -> sameRecords w2 w3 -> sameRecords w1 w3.
Proof.
  intros (Hv1 & Hm1 & Hd1) (Hv2 & Hm2 & Hd2).
  repeat split; [congruence..|].
  intros key H1 H2. by rewrite Hd2, Hd1.
Qed.

Lemma sameRecords_enqueue blockId w :
  sameRecords w (worldOf (QueueCheckpointForDeletion blockId w)).
Proof.
  rewrite QueueCheckpointForDeletion_eq. simpl.
  destruct (deadQueue w); [|apply sameRecords_refl].
  repeat split; [done..|]. simpl. intros key _ Hkey.
  by rewrite lookup_insert_ne.
Qed.

Lemma sameRecords_unlinkTip md tip prev w :
  sameRecords w (unlinkTip md tip prev w).
Proof.
  unfold unlinkTip. eapply sameRecords_trans; [|apply sameRecords_enqueue].
  repeat split; [done..|]. simpl. intros key Hkey _.
  by rewrite lookup_insert_ne.
Qed.

Lemma reorgLoop_sameRecords fuel client md o n w :
  sameRecords w (worldOf (reorgLoop fuel client md o n w)).
Proof.
  revert md n w. induction fuel as [|fuel IH]; intros md n w.
  - simpl. destruct (Height o <? Height n); [apply sameRecords_refl|].
    destruct (client (Height n)) as [c|]; [|apply sameRecords_refl].
    destruct (negb (HeaderHash c =? HeaderHash n)); [|apply sameRecords_refl].
    rewrite bind_eq. unfold DeleteMetadata, DeleteData.
    rewrite QueueCheckpointForDeletion_done. simpl.
    eapply sameRecords_trans; [|apply sameRecords_enqueue].
    repeat split; [done..|]. simpl. intros key Hkey _.
    by rewrite lookup_delete_ne.
  - simpl. destruct (Height o <? Height n).
    + destruct (client (Height n)) as [c|]; [|apply sameRecords_refl].
      destruct (HeaderHash c =? HeaderHash n); [apply sameRecords_refl|].
      rewrite bind_eq, GetData_eq.
      destruct (protoUnmarshal unmarshalLinks (data w !! getLinksKey n))
        as [l|]; [|apply sameRecords_refl].
      rewrite bind_eq, SaveMetadata_eq, bind_eq,
        QueueCheckpointForDeletion_done.
      set (w1 := worldOf (QueueCheckpointForDeletion n _)).
      assert (Hw1 : sameRecords w w1).
      { unfold w1. eapply sameRecords_trans; [|apply sameRecords_enqueue].
        repeat split; [done..|]. simpl. intros key Hkey _.
        by rewrite lookup_insert_ne. }
      rewrite bind_eq. destruct (Prev l) as [p|]; simpl; [|done].
      eapply sameRecords_trans; [exact Hw1|apply IH].
    + destruct (client (Height n)) as [c|]; [|apply sameRecords_refl].
      destruct (negb (HeaderHash c =? HeaderHash n));
        [|apply sameRecords_refl].
      rewrite bind_eq. unfold DeleteMetadata, DeleteData.
      rewrite QueueCheckpointForDeletion_done. simpl.
      eapply sameRecords_trans; [|apply sameRecords_enqueue].
      repeat split; [done..|]. simpl. intros key Hkey _.
      by rewrite lookup_delete_ne.
Qed.

(** X17: the reorg walk defers every deletion to the collector.
    However it ends, [QueueReorgedCheckpointsForDeletion] has written
    nothing but the [metadata] and [deadqueue] keys: every manifest,
    contents and links record and every value and machine is as it
    was. *)
Theorem QueueReorged_writes_only_index fuel client w :
  values (worldOf (QueueReorgedCheckpointsForDeletion fuel client w))
  = values w /\
  machines (worldOf (QueueReorgedCheckpointsForDeletion fuel client w))
  = machines w /\
  forall key, key <> lit "metadata" -> key <> lit "deadqueue" ->
    data (worldOf (QueueReorgedCheckpointsForDeletion fuel client w)) !! key
    = data w !! key.
Proof.
  change (sameRecords w
            (worldOf (QueueReorgedCheckpointsForDeletion fuel client w))).
  unfold QueueReorgedCheckpointsForDeletion, RestoreMetadata. run.
  destruct (len0 (data w !! lit "metadata")); [apply sameRecords_refl|].
  destruct (protoUnmarshal unmarshalMetadata (data w !! lit "metadata"))
    as [md|]; [|apply sameRecords_refl].
  run. destruct (Oldest md) as [o|]; run; [|apply sameRecords_refl].
  destruct (Newest md) as [n|]; run; [|apply sameRecords_refl].
  apply reorgLoop_sameRecords.
Qed.

Lemma loopState_unlinkTip w md o n p :
  loopState w md o n ->
  loopState (unlinkTip md n p w)
    (mkMetadata (FormatVersion md) (Oldest md) (Some p)) o p.
Proof.
  intros (Hlen & Hmd & Ho & Hn). repeat split; try done.
  - rewrite unlinkTip_metadata_key. simpl.
    apply bool_decide_eq_false, marshalMetadata_nonempty.
    simpl. by rewrite Ho.
  - apply unlinkTip_metadata.
Qed.

Lemma reorgLoop_exit fuel client md o n w :
  (Height o <? Height n) = false ->
  reorgLoop fuel client md o n w
  = match client (Height n) with
    | None => Done tt w
    | Some c =>
        if negb (HeaderHash c =? HeaderHash n)
        then (DeleteMetadata ;;; QueueCheckpointForDeletion n) w
        else Done tt w
    end.
Proof.
  intros Hlt. destruct fuel as [|fuel]; simpl; rewrite Hlt;
    destruct (client (Height n)) as [c|]; try done;
    by destruct (negb (HeaderHash c =? HeaderHash n)).
Qed.

Lemma reorgLoop_settles_exit fuel fuel' client w md o n w' :
  loopState w md o n ->
  (Height o <? Height n) = false ->
  reorgLoop fuel client md o n w = Done tt w' ->
  QueueReorgedCheckpointsForDeletion fuel' client w' = Done tt w'.
Proof.
  intros (Hlen & Hmd & Ho & Hn) Hlt. rewrite reorgLoop_exit by done.
  destruct (client (Height n)) as [c|] eqn:Hc.
  - destruct (HeaderHash c =? HeaderHash n) eqn:Hhash; simpl.
    + intros [= <-]. rewrite (QueueReorged_start _ _ _ md o n) by done.
      rewrite reorgLoop_exit by done. by rewrite Hc, Hhash.
    + rewrite bind_eq. unfold DeleteMetadata, DeleteData.
      rewrite QueueCheckpointForDeletion_done. intros [= <-].
      unfold QueueReorgedCheckpointsForDeletion, RestoreMetadata.
      rewrite bind_eq, GetData_eq.
      rewrite QueueCheckpointForDeletion_other
        by apply metadata_not_deadqueue.
      simpl. by rewrite lookup_delete_eq.
  - intros [= <-]. rewrite (QueueReorged_start _ _ _ md o n) by done.
    rewrite reorgLoop_exit by done. by rewrite Hc.
Qed.

Lemma reorgLoop_settles fuel client w md o n w' :
  loopState w md o n ->
  reorgLoop fuel client md o n w = Done tt w' ->
  forall fuel', QueueReorgedCheckpointsForDeletion (S fuel') client w'
                = Done tt w'.
Proof.
  revert w md n. induction fuel as [|fuel IH]; intros w md n Hst Hrun fuel'.
  - destruct (Height o <? Height n) eqn:Hlt.
    + simpl in Hrun. by rewrite Hlt in Hrun.
    + by eapply reorgLoop_settles_exit.
  - destruct (Height o <? Height n) eqn:Hlt;
      [|by eapply reorgLoop_settles_exit].
    pose proof Hst as (Hlen & Hmd & Ho & Hn).
    destruct (client (Height n)) as [c|] eqn:Hc.
    + destruct (HeaderHash c =? HeaderHash n) eqn:Hhash.
      * simpl in Hrun. rewrite Hlt, Hc, Hhash in Hrun.
        injection Hrun as <-.
        rewrite (QueueReorged_start _ _ _ md o n) by done.
        simpl. by rewrite Hlt, Hc, Hhash.
      * destruct (linksOf w n) as [l|] eqn:Hl.
        -- destruct (Prev l) as [p|] eqn:Hp.
           ++ rewrite (reorgLoop_unlink fuel client md o n c l p) in Hrun;
                [|by apply N.ltb_lt|done|by apply N.eqb_neq|done..].
              eapply IH; [|exact Hrun]. by apply loopState_unlinkTip.
           ++ rewrite (reorgLoop_nil_prev fuel client md o n c l) in Hrun;
                [done|by apply N.ltb_lt|done|by apply N.eqb_neq|done..].
        -- simpl in Hrun. rewrite Hlt, Hc, Hhash in Hrun.
           unfold linksOf in Hl.
           rewrite bind_eq, GetData_eq, Hl in Hrun.
           injection Hrun as <-.
           rewrite (QueueReorged_start _ _ _ md o n) by done.
           simpl. rewrite Hlt, Hc, Hhash.
           by rewrite bind_eq, GetData_eq, Hl.
    + simpl in Hrun. rewrite Hlt, Hc in Hrun. injection Hrun as <-.
      rewrite (QueueReorged_start _ _ _ md o n) by done.
      simpl. by rewrite Hlt, Hc.
Qed.

(** X18: reconciling twice is reconciling once.  When
    [QueueReorgedCheckpointsForDeletion] has returned, a second call
    with the same client returns with the store unchanged: nothing more
    is unlinked and nothing is queued a second time. *)
Theorem QueueReorged_twice fuel fuel' client w w' :
  QueueReorgedCheckpointsForDeletion fuel client w = Done tt w' ->
  QueueReorgedCheckpointsForDeletion (S fuel') client w' = Done tt w'.
Proof.
  unfold QueueReorgedCheckpointsForDeletion at 1, RestoreMetadata. run.
  destruct (len0 (data w !! lit "metadata")) eqn:Hlen.
  { intros [= <-]. unfold QueueReorgedCheckpointsForDeletion, RestoreMetadata.
    run. by rewrite Hlen. }
  destruct (protoUnmarshal unmarshalMetadata (data w !! lit "metadata"))
    as [md|] eqn:Hmd.
  2:{ intros [= <-]. unfold QueueReorgedCheckpointsForDeletion, RestoreMetadata.
      run. by rewrite Hlen, Hmd. }
  run. destruct (Oldest md) as [o|] eqn:Ho; run; [|done].
  destruct (Newest md) as [n|] eqn:Hn; run; [|done].
  intros Hloop. by eapply (reorgLoop_settles fuel client w md o n).
Qed.

End ReorgMore.

Section TrimMore.

Context {codec : Codec}.

(** The body of the trimming loop either returns with the store as it
    is, or goes round again having queued the oldest id. *)
Lemma queueOldBody_inv earliest w again w1 :
  queueOldBody earliest w = Done again w1 ->
  (again = false /\ w1 = w) \/
  (again = true /\
   exists md cand links nx,
     metadataOf w = Some md /\ Oldest md = Some cand /\
     linksOf w cand = Some links /\ Next links = Some nx /\
     Height nx < earliest /\
     w1 = worldOf (QueueCheckpointForDeletion cand w)).
Proof.
  unfold queueOldBody, RestoreMetadata, metadataOf, linksOf. run.
  destruct (protoUnmarshal unmarshalMetadata (data w !! lit "metadata"))
    as [md|] eqn:Hmd; [|intros [= <- <-]; by left].
  run. destruct (Oldest md) as [cand|] eqn:Hcand; run; [|done].
  destruct (protoUnmarshal unmarshalLinks (data w !! getLinksKey cand))
    as [links|] eqn:Hlinks; [|intros [= <- <-]; by left].
  run. destruct (Next links) as [nx|] eqn:Hnx; run; [|done].
  destruct (earliest <=? Height nx) eqn:Hle; [intros [= <- <-]; by left|].
  run. rewrite QueueCheckpointForDeletion_done. run.
  intros [= <- <-]. right. split; [done|].
  exists md, cand, links, nx. apply N.leb_gt in Hle. done.
Qed.

Lemma QueueOld_goes_on earliest w md cand links nx fuel :
  metadataOf w = Some md -> Oldest md = Some cand ->
  linksOf w cand = Some links -> Next links = Some nx ->
  Height nx < earliest ->
  QueueOldCheckpointsForDeletion fuel earliest w
  = OutOfFuel (requeued cand fuel w).
Proof.
  intros Hmd Hcand Hlinks Hnx Hlt.
  revert w Hmd Hlinks. induction fuel as [|fuel IH]; intros w Hmd Hlinks.
  - done.
  - simpl QueueOldCheckpointsForDeletion.
    rewrite bind_eq, (queueOldBody_again _ _ md cand links nx) by done.
    rewrite requeued_S. apply IH.
    + by rewrite QueueCheckpointForDeletion_metadata.
    + by rewrite QueueCheckpointForDeletion_links.
Qed.

(** X19: whenever [QueueOldCheckpointsForDeletion] returns, it has
    changed nothing: the oldest id is where it was and nothing was
    queued.  It returns in the first round or not at all. *)
Theorem QueueOldCheckpointsForDeletion_returns_unchanged fuel earliest w w' :
  QueueOldCheckpointsForDeletion fuel earliest w = Done tt w' -> w' = w.
Proof.
  destruct fuel as [|fuel]; [done|].
  simpl. rewrite bind_eq.
  destruct (queueOldBody earliest w) as [again w1|w1|w1] eqn:Hbody;
    [|done..].
  destruct (queueOldBody_inv _ _ _ _ Hbody)
    as [[-> ->]|[-> (md & cand & links & nx & Hmd & Hc & Hl & Hn & Hlt & ->)]].
  - by intros [= <-].
  - rewrite (QueueOld_goes_on _ _ md cand links nx); [done|..]; try done.
    + by rewrite QueueCheckpointForDeletion_metadata.
    + by rewrite QueueCheckpointForDeletion_links.
Qed.

End TrimMore.

(** ** The linked chain *)

Section Chain.

Context {codec : Codec}.

Lemma chainPrev_app ids more i id :
  (i <= length ids)%nat ->
  chainPrev (ids ++ more) i id = chainPrev ids i id.
Proof.
  intros Hi. destruct i as [|j]; [done|]. simpl.
  by rewrite lookup_app_l by lia.
Qed.

(** The index records of a committed save. *)
Lemma _saveCheckpoint_index id contents ctx w w' md tip old :
  _saveCheckpoint id contents ctx w = Done None w' ->
  metadataForSave w id = Some md -> Newest md = Some tip ->
  linksOf w tip = Some old ->
  len0 (data w' !! lit "metadata") = false /\
  metadataOf w' = Some (lastMetadata md id) /\
  forall x, linksOf w' x
            = if decide (x = id) then Some (mkLinks (Some tip) (Some id))
              else if decide (x = tip) then Some (mkLinks (Prev old) (Some id))
              else linksOf w x.
Proof.
  intros Hrun Hmd Htip Hold.
  destruct (_saveCheckpoint_inv _ _ _ _ _ Hrun)
    as (md' & tip' & old' & Hmd' & Htip' & Hok & Hold').
  rewrite (_saveCheckpoint_commits _ _ _ _ md tip old) in Hrun by done.
  injection Hrun as <-.
  unfold metadataOf, linksOf. simpl. rewrite lookup_insert_eq.
  split; [|split].
  - simpl. apply bool_decide_eq_false, marshalMetadata_not_nil. done.
  - unfold protoUnmarshal. simpl. apply unmarshal_marshal_Metadata.
  - intros x. rewrite lookup_insert_ne by apply metadata_not_links.
    destruct (decide (x = id)) as [->|Hid].
    { rewrite lookup_insert_eq. unfold protoUnmarshal. simpl.
      apply unmarshal_marshal_Links. }
    rewrite lookup_insert_ne by (apply links_key_ne; congruence).
    destruct (decide (x = tip)) as [->|Htp].
    { rewrite lookup_insert_eq. unfold protoUnmarshal. simpl.
      apply unmarshal_marshal_Links. }
    rewrite lookup_insert_ne by (apply links_key_ne; congruence).
    rewrite lookup_insert_ne by apply contents_not_links.
    rewrite lookup_insert_ne by apply manifest_not_links.
    apply startWorld_links.
Qed.

Lemma linkedChain_tip w ids n :
  linkedChain w ids -> last ids = Some n ->
  exists old, linksOf w n = Some old /\
    Prev old = Some (chainPrev ids (pred (length ids)) n).
Proof.
  intros (_ & _ & Hlinks) Hlast. rewrite last_lookup in Hlast.
  destruct (Hlinks _ _ Hlast) as (old & Hold & Hprev & _). eauto.
Qed.

(** X20: a save extends the chain.  On a store that holds the
    checkpoints [ids] as a linked chain, a save of an id not among them
    whose machines can all be written commits, and the store then holds
    [ids] followed by the new id as a linked chain: the new id is the
    newest, its prev is the old tip, the next of the old tip is the new
    id, and the oldest id and all other links are as before. *)
Theorem _saveCheckpoint_extends_chain id contents ctx w ids :
  linkedChain w ids -> id ∉ ids ->
  forallb checkpointable (ctxMachines ctx) = true ->
  exists w', _saveCheckpoint id contents ctx w = Done None w' /\
    linkedChain w' (ids ++ [id]).
Proof.
  intros Hchain Hfresh Hok.
  pose proof Hchain as (Hnd & (v & o & n & Hhead & Hlast & Hlen & Hmd) & Hlinks).
  destruct (linkedChain_tip w ids n Hchain Hlast) as (old & Hold & Hpold).
  assert (HmdS : metadataForSave w id = Some (mkMetadata v (Some o) (Some n))).
  { unfold metadataForSave. by rewrite Hlen. }
  pose proof (_saveCheckpoint_commits id contents ctx w _ n old HmdS eq_refl
                Hok Hold) as Hrun.
  eexists. split; [exact Hrun|].
  destruct (_saveCheckpoint_index _ _ _ _ _ _ n old Hrun HmdS eq_refl Hold)
    as (Hlen' & Hmd' & Hlinks').
  assert (Hne : ids <> []) by (intros ->; done).
  assert (Hn_idx : ids !! pred (length ids) = Some n)
    by (by rewrite <- last_lookup).
  assert (Hpos : (0 < length ids)%nat)
    by (destruct ids; [done | simpl; lia]).
  split; [|split].
  - apply NoDup_app. split; [done|]. split; [|apply NoDup_singleton].
    intros x Hx Hin. apply list_elem_of_singleton in Hin. by subst.
  - exists v, o, id. split; [|split; [apply last_snoc|split; done]].
    destruct ids; [done|]. done.
  - intros i x Hix. rewrite Hlinks'.
    destruct (decide (i < length ids)%nat) as [Hi|Hi].
    + rewrite lookup_app_l in Hix by done.
      assert (Hxid : x <> id).
      { intros ->. apply Hfresh. by eapply list_elem_of_lookup_2. }
      rewrite decide_False by done.
      destruct (Hlinks i x Hix) as (l & Hl & Hp & Hnx).
      rewrite chainPrev_app by lia.
      destruct (decide (x = n)) as [->|Hxn].
      * assert (i = pred (length ids)) as -> by (by eapply NoDup_lookup).
        assert (l = old) as -> by congruence.
        eexists. split; [done|]. simpl. split; [done|].
        intros nx. rewrite lookup_app_r by lia.
        replace (S (pred (length ids)) - length ids)%nat with 0%nat by lia.
        by intros [= <-].
      * exists l. split; [done|]. split; [done|].
        intros nx Hnx'. apply Hnx.
        destruct (decide (S i < length ids)%nat) as [HSi|HSi].
        -- by rewrite lookup_app_l in Hnx' by done.
        -- assert (i = pred (length ids)) as -> by lia. congruence.
    + rewrite lookup_app_r in Hix by lia.
      apply list_lookup_singleton_Some in Hix as [Hi0 <-].
      rewrite decide_True by done.
      eexists. split; [done|]. simpl. split.
      * assert (i = S (pred (length ids))) as -> by lia. simpl.
        rewrite lookup_app_l by lia. by rewrite Hn_idx.
      * intros nx Hnx. apply lookup_lt_Some in Hnx.
        rewrite length_app in Hnx. simpl in Hnx. lia.
Qed.

(** X21: the first save starts the chain.  On a store without metadata,
    where the links key of the id is absent or decodes, a save whose
    machines can all be written commits and leaves the chain of the one
    id: oldest and newest are the id, and both of its pointers point at
    the id itself. *)
Theorem _saveCheckpoint_starts_chain id contents ctx w :
  len0 (data w !! lit "metadata") = true ->
  is_Some (linksOf w id) ->
  forallb checkpointable (ctxMachines ctx) = true ->
  exists w', _saveCheckpoint id contents ctx w = Done None w' /\
    linkedChain w' [id] /\
    linksOf w' id = Some (mkLinks (Some id) (Some id)).
Proof.
  intros Hlen [old Hold] Hok.
  assert (HmdS : metadataForSave w id
                 = Some (mkMetadata 1 (Some id) (Some id))).
  { unfold metadataForSave. by rewrite Hlen. }
  pose proof (_saveCheckpoint_commits id contents ctx w _ id old HmdS eq_refl
                Hok Hold) as Hrun.
  eexists. split; [exact Hrun|].
  destruct (_saveCheckpoint_index _ _ _ _ _ _ id old Hrun HmdS eq_refl Hold)
    as (Hlen' & Hmd' & Hlinks').
  split; [|by rewrite Hlinks', decide_True].
  split; [apply NoDup_singleton|]. split; [by exists 1, id, id|].
  intros i x Hix. apply list_lookup_singleton_Some in Hix as [-> <-].
  rewrite Hlinks', decide_True by done.
  eexists. split; [done|]. split; [done|]. by intros nx.
Qed.

(** Unlinking the tip of a chain leaves the chain without its tip. *)
Lemma unlinkTip_truncates w ids t md p :
  linkedChain w (ids ++ [t]) -> last ids = Some p ->
  metadataOf w = Some md ->
  linksOf w t = Some (mkLinks (Some p) (Next (default emptyLinks (linksOf w t))))
  /\ linkedChain (unlinkTip md t p w) ids.
Proof.
  intros (Hnd & (v & o & n & Hhead & Hlast & Hlen & Hmd) & Hlinks) Hp Hmd'.
  assert (md = mkMetadata v (Some o) (Some n)) as -> by congruence.
  assert (n = t) as -> by (rewrite last_snoc in Hlast; congruence).
  assert (Hne : ids <> []) by (intros ->; done).
  assert (Hpos : (0 < length ids)%nat)
    by (destruct ids; [done | simpl; lia]).
  assert (Hp_idx : ids !! pred (length ids) = Some p)
    by (by rewrite <- last_lookup).
  split.
  - destruct (Hlinks (length ids) t) as (l & Hl & Hprev & _).
    { rewrite lookup_app_r by lia. by rewrite Nat.sub_diag. }
    rewrite Hl. simpl. destruct l as [lp ln]. simpl in *. rewrite Hprev.
    do 3 f_equal. replace (length ids) with (S (pred (length ids))) by lia.
    simpl. rewrite lookup_app_l by lia. by rewrite Hp_idx.
  - split; [by apply NoDup_app in Hnd as (? & _)|]. split.
    + exists v, o, p. split; [|split; [done|split]].
      * destruct ids; [done|]. done.
      * eapply (loopState_unlinkTip w _ o t p). by repeat split.
      * apply unlinkTip_metadata.
    + intros i x Hix. rewrite unlinkTip_links.
      pose proof (lookup_lt_Some _ _ _ Hix) as Hi.
      destruct (Hlinks i x) as (l & Hl & Hprev & Hnx).
      { by apply lookup_app_l_Some. }
      exists l. split; [done|].
      rewrite chainPrev_app in Hprev by lia. split; [done|].
      intros nx Hnx'. apply Hnx. by apply lookup_app_l_Some.
Qed.

Lemma reorg_walk_orphans client o suf :
  forall pre w q,
    pre <> [] -> head pre = Some o ->
    linkedChain w (pre ++ suf) -> orphans client o suf ->
    deadQueue w = Some q ->
    exists w1,
      (forall fuel,
         QueueReorgedCheckpointsForDeletion (length suf + fuel) client w
         = QueueReorgedCheckpointsForDeletion fuel client w1) /\
      linkedChain w1 pre /\
      deadQueue w1 = Some (q ++ reverse suf) /\
      sameRecords w w1.
Proof.
  induction suf as [|t suf IH] using rev_ind; intros pre w q Hpre Hhead
    Hchain Horph Hq.
  - exists w. rewrite app_nil_r in Hchain. simpl. rewrite app_nil_r.
    split; [done|]. split; [done|]. split; [done|]. apply sameRecords_refl.
  - rewrite app_assoc in Hchain.
    pose proof Hchain as (Hnd & (v & o' & n & Hh & Hl & Hlen & Hmd) & Hlinks).
    assert (o' = o) as ->.
    { destruct pre; [done|]. simpl in *. congruence. }
    assert (n = t) as -> by (rewrite last_snoc in Hl; congruence).
    assert (Hps : is_Some (last (pre ++ suf))).
    { apply last_is_Some. by destruct pre. }
    destruct Hps as [p Hp].
    set (md := mkMetadata v (Some o) (Some t)) in *.
    destruct (unlinkTip_truncates w (pre ++ suf) t md p Hchain Hp Hmd)
      as (Hlt & Hchain1).
    destruct (Horph t) as (Hhigh & c & Hc & Hhash).
    { apply elem_of_app. right. by left. }
    assert (Horph1 : orphans client o suf).
    { intros x Hx. apply Horph. apply elem_of_app. by left. }
    pose proof (unlinkTip_queue md t p w q Hq) as Hq1.
    destruct (IH pre (unlinkTip md t p w) (q ++ [t]) Hpre Hhead Hchain1
                Horph1 Hq1) as (w1 & Hrun & Hc1 & Hq1' & Hsame).
    exists w1. split; [|split; [done|split]].
    + intros fuel. rewrite length_app. simpl.
      replace (length suf + 1 + fuel)%nat with (S (length suf + fuel)) by lia.
      rewrite <- Hrun.
      rewrite (QueueReorged_start _ _ _ md o t) by done.
      rewrite (reorgLoop_unlink _ client md o t c _ p w Hhigh Hc Hhash Hlt
                 eq_refl).
      symmetry. apply QueueReorged_start.
      * eapply (loopState_unlinkTip w md o t p). by repeat split.
      * apply unlinkTip_metadata.
      * done.
      * done.
    + rewrite Hq1', reverse_snoc, <- List.app_assoc. done.
    + eapply sameRecords_trans; [apply sameRecords_unlinkTip|exact Hsame].
Qed.

(** X22: the reorg walk removes exactly the orphaned tail.  On a store
    that holds [pre] followed by [suf] as a linked chain, where every id
    of [suf] lies above the oldest height and is not the canonical block
    of its height, and where the client confirms the last id of [pre] or
    answers with an error for it,
    [QueueReorgedCheckpointsForDeletion] returns with [pre] as the
    linked chain of the store and with the ids of [suf] appended to the
    dead queue from the tip backwards; no record, value or machine has
    been deleted. *)
Theorem QueueReorged_removes_orphans client w pre suf o p q fuel :
  linkedChain w (pre ++ suf) ->
  head pre = Some o -> last pre = Some p ->
  orphans client o suf ->
  (client (Height p) = None \/
   exists c, client (Height p) = Some c /\ HeaderHash c = HeaderHash p) ->
  deadQueue w = Some q ->
  (length suf < fuel)%nat ->
  exists w',
    QueueReorgedCheckpointsForDeletion fuel client w = Done tt w' /\
    linkedChain w' pre /\
    deadQueue w' = Some (q ++ reverse suf) /\
    sameRecords w w'.
Proof.
  intros Hchain Hhead Hlast Horph Hclient Hq Hfuel.
  assert (Hpre : pre <> []) by (intros ->; done).
  destruct (reorg_walk_orphans client o suf pre w q Hpre Hhead Hchain Horph Hq)
    as (w1 & Hrun & Hchain1 & Hq1 & Hsame).
  exists w1. split; [|done].
  replace fuel with (length suf + S (fuel - length suf - 1))%nat by lia.
  rewrite Hrun.
  destruct Hchain1 as (_ & (v & o' & n & Hh & Hl & Hlen & Hmd) & _).
  apply (QueueReorged_stops _ _ _ _ o' n Hlen Hmd eq_refl eq_refl).
  by assert (n = p) as -> by congruence.
Qed.

(** X23: when every checkpoint is orphaned the store is emptied.  On a
    store that holds [o] followed by [suf] as a linked chain, where
    every id of [suf] lies above the height of [o] and none of the ids,
    [o] included, is the canonical block of its height, the walk returns
    with the metadata deleted, so [HasCheckpointedState] is false, and
    with all ids on the dead queue from the tip backwards. *)
Theorem QueueReorged_removes_all client w o suf c q fuel :
  linkedChain w (o :: suf) ->
  orphans client o suf ->
  client (Height o) = Some c -> HeaderHash c <> HeaderHash o ->
  deadQueue w = Some q ->
  (length suf <= fuel)%nat ->
  exists w',
    QueueReorgedCheckpointsForDeletion fuel client w = Done tt w' /\
    data w' !! lit "metadata" = None /\
    HasCheckpointedState w' = Done false w' /\
    deadQueue w' = Some (q ++ reverse (o :: suf)) /\
    sameRecords w w'.
Proof.
  intros Hchain Horph Hc Hhash Hq Hfuel.
  destruct (reorg_walk_orphans client o suf [o] w q ltac:(done) eq_refl
              Hchain Horph Hq) as (w1 & Hrun & Hchain1 & Hq1 & Hsame).
  replace fuel with (length suf + (fuel - length suf))%nat by lia.
  rewrite Hrun.
  destruct Hchain1 as (_ & (v & o' & n & Hh & Hl & Hlen & Hmd) & _).
  injection Hh as <-. injection Hl as <-.
  rewrite (QueueReorged_start _ _ _ _ o o Hlen Hmd eq_refl eq_refl).
  rewrite reorgLoop_exit by apply N.ltb_irrefl.
  rewrite Hc. apply N.eqb_neq in Hhash. rewrite Hhash. simpl.
  rewrite bind_eq. unfold DeleteMetadata, DeleteData.
  rewrite QueueCheckpointForDeletion_done.
  set (wd := mkWorld _ _ _ _).
  assert (Hmeta : data (worldOf (QueueCheckpointForDeletion o wd))
                    !! lit "metadata" = None).
  { rewrite QueueCheckpointForDeletion_other by apply metadata_not_deadqueue.
    apply lookup_delete_eq. }
  eexists. split; [done|]. split; [done|]. split; [|split].
  - unfold HasCheckpointedState, RestoreMetadata. run. by rewrite Hmeta.
  - rewrite (QueueCheckpointForDeletion_queue o wd (q ++ reverse suf)).
    + by rewrite reverse_cons, <- List.app_assoc.
    + unfold deadQueue in *. unfold wd. simpl.
      rewrite lookup_delete_ne by apply metadata_not_deadqueue. done.
  - eapply sameRecords_trans; [exact Hsame|].
    eapply sameRecords_trans; [|apply sameRecords_enqueue].
    repeat split; [done..|]. unfold wd. simpl. intros key Hkey _.
    by rewrite lookup_delete_ne.
Qed.

(** X24: after a reorg the restore hands out the last confirmed
    checkpoint.  Under the conditions of the walk over an orphaned tail,
    when the oldest height is not above the height of the last id [p] of
    [pre], [RestoreLatestState] is the call of the restore function on
    the bytes the store held under the contents key of [p] before the
    walk, on the restore context, in the store the walk leaves. *)
Theorem RestoreLatestState_after_reorg client unmarshalFunc w pre suf o p q
    fuel :
  linkedChain w (pre ++ suf) ->
  head pre = Some o -> last pre = Some p ->
  orphans client o suf ->
  (client (Height p) = None \/
   exists c, client (Height p) = Some c /\ HeaderHash c = HeaderHash p) ->
  deadQueue w = Some q ->
  (length suf < fuel)%nat ->
  Height o <= Height p ->
  exists w',
    QueueReorgedCheckpointsForDeletion fuel client w = Done tt w' /\
    RestoreLatestState fuel client unmarshalFunc w
    = unmarshalFunc (data w !! getContentsKey p) (Some rcp) w'.
Proof.
  intros Hchain Hhead Hlast Horph Hclient Hq Hfuel Hle.
  assert (Hpre : pre <> []) by (intros ->; done).
  destruct (reorg_walk_orphans client o suf pre w q Hpre Hhead Hchain Horph Hq)
    as (w1 & Hrun & Hchain1 & Hq1 & Hsame).
  assert (Hwalk : QueueReorgedCheckpointsForDeletion fuel client w
                  = Done tt w1).
  { replace fuel with (length suf + S (fuel - length suf - 1))%nat by lia.
    rewrite Hrun.
    destruct Hchain1 as (_ & (v & o' & n & Hh & Hl & Hlen & Hmd) & _).
    apply (QueueReorged_stops _ _ _ _ o' n Hlen Hmd eq_refl eq_refl).
    by assert (n = p) as -> by congruence. }
  exists w1. split; [done|].
  destruct Hchain1 as (_ & (v & o' & n & Hh & Hl & Hlen & Hmd) & _).
  assert (o' = o) as -> by congruence.
  assert (n = p) as -> by congruence.
  rewrite (RestoreLatestState_after_walk _ _ _ _ w1 _ o p Hwalk Hlen Hmd
             eq_refl eq_refl Hle).
  destruct Hsame as (_ & _ & Hdata). rewrite Hdata; [done|..].
  - intros E. symmetry in E. by apply metadata_not_contents in E.
  - intros E. symmetry in E. by apply deadqueue_not_contents in E.
Qed.

End Chain.

(** ** The further properties on the sample stores *)

Module MoreWitnesses.
Import RefCodec Sample MoreSamples.

(** Reads a sample chain off the store, index by index. *)
Ltac read_chain v o n :=
  split; [by apply (bool_decide_unpack _)|];
  split; [exists v, o, n; by repeat split|];
  let i := fresh "i" in let x := fresh "x" in let Hix := fresh "Hix" in
  intros i x Hix;
  repeat (destruct i as [|i]; [injection Hix as <-|]);
  [..|by simpl in Hix].

Lemma chainA : linkedChain wA [idA].
Proof.
  read_chain 1 idA idA.
  exists (mkLinks (Some idA) (Some idA)). by repeat split.
Qed.

Lemma chainAB : linkedChain wAB [idA; idB].
Proof.
  read_chain 1 idA idB.
  - exists (mkLinks (Some idA) (Some idB)).
    repeat split; [by intros nx [= <-]].
  - exists (mkLinks (Some idA) (Some idB)). by repeat split.
Qed.

Lemma chainABC : linkedChain wABC [idA; idB; idC].
Proof.
  read_chain 1 idA idC.
  - exists (mkLinks (Some idA) (Some idB)).
    repeat split; [by intros nx [= <-]].
  - exists (mkLinks (Some idA) (Some idC)).
    repeat split; [by intros nx [= <-]].
  - exists (mkLinks (Some idB) (Some idC)). by repeat split.
Qed.

Lemma orphans_idC : orphans clientReorg12 idA [idC].
Proof.
  intros x Hx. apply list_elem_of_singleton in Hx as ->.
  split; [reflexivity|]. exists (mkBlockId 12 26). split; [reflexivity|].
  discriminate.
Qed.

Lemma orphans_none client o : orphans client o [].
Proof. intros x Hx. by apply elem_of_nil in Hx. Qed.

Lemma _saveCheckpoint_error_iff_witness :
  _saveCheckpoint idA [x78] ctx1 wCorrupt = Done (Some ErrUnmarshal) wCorrupt /\
  saveCheckpointJob idA [x78] ctx1 wCorrupt = Done tt wCorrupt.
Proof.
  apply (_saveCheckpoint_error_iff (codec := ref) idA [x78] ctx1 wCorrupt).
  split; reflexivity.
Defined.

Lemma _saveCheckpoint_machine_failure_witness :
  exists w', _saveCheckpoint idA [x78] ctxBad emptyWorld = Crash w' /\
    (forall key, key <> lit "metadata" ->
       data w' !! key = data emptyWorld !! key) /\
    (len0 (data emptyWorld !! lit "metadata") = false ->
       data w' = data emptyWorld) /\
    (len0 (data emptyWorld !! lit "metadata") = true ->
       metadataOf w' = Some (mkMetadata 1 (Some idA) (Some idA)) /\
       HasCheckpointedState w' = Done true w').
Proof.
  apply (_saveCheckpoint_machine_failure (codec := ref) idA [x78] ctxBad
           emptyWorld metaA idA); reflexivity.
Defined.

Lemma _saveCheckpoint_keeps_oldest_witness :
  (len0 (data wA !! lit "metadata") = true ->
     metadataOf wAB = Some (mkMetadata 1 (Some idB) (Some idB))) /\
  (len0 (data wA !! lit "metadata") = false ->
     exists md, metadataOf wA = Some md /\
       metadataOf wAB
       = Some (mkMetadata (FormatVersion md) (Oldest md) (Some idB))).
Proof.
  apply (_saveCheckpoint_keeps_oldest (codec := ref) idB [x79] ctx1 wA wAB).
  reflexivity.
Defined.

Lemma _saveCheckpoint_then_restore_witness :
  data wAB !! getManifestKey idB = Some (marshalManifest (ctxManifest ctx1)) /\
  data wAB !! getContentsKey idB = Some [x79] /\
  (Height idA <= Height idB ->
     RestoreCheckpoint idB wAB = Done (Some [x79], Some rcp, None) wAB) /\
  (Height idB < Height idA ->
     RestoreCheckpoint idB wAB = Done (None, None, None) wAB).
Proof.
  apply (_saveCheckpoint_then_restore (codec := ref) idB [x79] ctx1 wA wAB
           metaA idA); reflexivity.
Defined.

Lemma _saveCheckpoint_frame_witness :
  data wABC !! getManifestKey idA = data wAB !! getManifestKey idA /\
  data wABC !! getContentsKey idA = data wAB !! getContentsKey idA /\
  (prevTip wAB idC <> Some idA ->
     data wABC !! getLinksKey idA = data wAB !! getLinksKey idA) /\
  data wABC !! lit "deadqueue" = data wAB !! lit "deadqueue".
Proof.
  apply (_saveCheckpoint_frame (codec := ref) idC [x7a] ctx1 wAB wABC idA);
    [reflexivity | discriminate].
Defined.

Lemma _saveCheckpoint_has_state_witness :
  HasCheckpointedState wA = Done true wA.
Proof.
  apply (_saveCheckpoint_has_state (codec := ref) idA [x78] ctx1 emptyWorld wA).
  reflexivity.
Defined.

Lemma pointer_updates_witness :
  exists w1 w2 w3,
    _updateNextPointer idB idC wAB = Done tt w1 /\
    linksOf w1 idB = Some (mkLinks (Some idA) (Some idC)) /\
    (forall key, key <> getLinksKey idB -> data w1 !! key = data wAB !! key) /\
    _updatePrevPointer idB idA wAB = Done tt w2 /\
    linksOf w2 idB = Some (mkLinks (Some idA) (Some idB)) /\
    (forall key, key <> getLinksKey idB -> data w2 !! key = data wAB !! key) /\
    (_updatePrevPointer idB idA ;;; _updateNextPointer idB idC) wAB
    = Done tt w3 /\
    data w3 = data (worldOf (_setBothPointers idB idA idC wAB)).
Proof.
  destruct (pointer_updates (codec := ref) idB idA idC wAB) as (Hset & _).
  apply (Hset (mkLinks (Some idA) (Some idB))). reflexivity.
Defined.

Lemma DeleteOneOldCheckpoint_effect_witness :
  exists w1, DeleteOneOldCheckpoint idA wA = Done tt w1 /\
    data w1 !! getManifestKey idA = None /\
    data w1 !! getContentsKey idA = None /\
    data w1 !! getLinksKey idA = None /\
    (forall key, ~ recordKeyOf idA key -> data w1 !! key = data wA !! key) /\
    values w1 = values wA ∖ list_to_set_disj (Values manifest1) /\
    machines w1 = machines wA ∖ list_to_set_disj (Machines manifest1).
Proof.
  apply (DeleteOneOldCheckpoint_effect (codec := ref) idA
           (marshalManifest manifest1) manifest1 wA); reflexivity.
Defined.


Lemma ticks_drain_queue_witness : deadQueue (ticks 11 wQueue11) = Some [].
Proof.
  apply (ticks_drain_queue (codec := ref) 11 wQueue11 queue11);
    [reflexivity | apply le_n].
Defined.

Lemma RestoreLatestState_hands_tip_witness :
  RestoreLatestState 1 (fun _ => None) (expectContents [x7a]) wABC
  = expectContents [x7a] (data wABC !! getContentsKey idC) (Some rcp) wABC.
Proof.
  apply (RestoreLatestState_hands_tip (codec := ref) 0 (fun _ => None)
           (expectContents [x7a]) wABC metaABC idA idC);
    [reflexivity | reflexivity | reflexivity | reflexivity | discriminate
    | by left].
Defined.

Lemma RestoreLatestState_corrupt_metadata_witness :
  RestoreLatestState 1 clientOther (expectContents []) wCorrupt
  = Done (Some ErrUnmarshal) wCorrupt.
Proof.
  apply (RestoreLatestState_corrupt_metadata (codec := ref) 1 clientOther
           (expectContents []) wCorrupt); reflexivity.
Defined.

Lemma QueueReorged_twice_witness :
  QueueReorgedCheckpointsForDeletion 1 clientReorg12
    (unlinkTip metaABC idC idB wABC)
  = Done tt (unlinkTip metaABC idC idB wABC).
Proof.
  apply (QueueReorged_twice (codec := ref) 2 0 clientReorg12 wABC).
  reflexivity.
Defined.

Lemma QueueOldCheckpointsForDeletion_returns_unchanged_witness : wABC = wABC.
Proof.
  apply (QueueOldCheckpointsForDeletion_returns_unchanged (codec := ref)
           1 11 wABC wABC).
  reflexivity.
Defined.

Lemma _saveCheckpoint_extends_chain_witness :
  exists w', _saveCheckpoint idC [x7a] ctx1 wAB = Done None w' /\
    linkedChain w' ([idA; idB] ++ [idC]).
Proof.
  apply (_saveCheckpoint_extends_chain (codec := ref) idC [x7a] ctx1 wAB
           [idA; idB] chainAB); [|reflexivity].
  intros Hin. apply elem_of_cons in Hin as [Hin|Hin]; [discriminate Hin|].
  apply list_elem_of_singleton in Hin. discriminate Hin.
Defined.

Lemma _saveCheckpoint_starts_chain_witness :
  exists w', _saveCheckpoint idA [x78] ctx1 emptyWorld = Done None w' /\
    linkedChain w' [idA] /\
    linksOf w' idA = Some (mkLinks (Some idA) (Some idA)).
Proof.
  apply (_saveCheckpoint_starts_chain (codec := ref) idA [x78] ctx1 emptyWorld);
    [reflexivity | by eexists | reflexivity].
Defined.

Lemma QueueReorged_removes_orphans_witness :
  exists w',
    QueueReorgedCheckpointsForDeletion 2 clientReorg12 wABC = Done tt w' /\
    linkedChain w' [idA; idB] /\
    deadQueue w' = Some ([] ++ reverse [idC]) /\
    sameRecords wABC w'.
Proof.
  apply (QueueReorged_removes_orphans (codec := ref) clientReorg12 wABC
           [idA; idB] [idC] idA idB [] 2 chainABC);
    [reflexivity | reflexivity | apply orphans_idC
    | right; exists idB; split; reflexivity | reflexivity | apply le_n].
Defined.

Lemma QueueReorged_removes_all_witness :
  exists w',
    QueueReorgedCheckpointsForDeletion 0 clientOther wA = Done tt w' /\
    data w' !! lit "metadata" = None /\
    HasCheckpointedState w' = Done false w' /\
    deadQueue w' = Some ([] ++ reverse [idA]) /\
    sameRecords wA w'.
Proof.
  apply (QueueReorged_removes_all (codec := ref) clientOther wA idA []
           (mkBlockId 10 99) [] 0 chainA (orphans_none _ _));
    [reflexivity | discriminate | reflexivity | apply le_n].
Defined.

Lemma RestoreLatestState_after_reorg_witness :
  exists w',
    QueueReorgedCheckpointsForDeletion 2 clientReorg12 wABC = Done tt w' /\
    RestoreLatestState 2 clientReorg12 (expectContents [x79]) wABC
    = expectContents [x79] (data wABC !! getContentsKey idB) (Some rcp) w'.
Proof.
  apply (RestoreLatestState_after_reorg (codec := ref) clientReorg12
           (expectContents [x79]) wABC [idA; idB] [idC] idA idB [] 2 chainABC);
    [reflexivity | reflexivity | apply orphans_idC
    | right; exists idB; split; reflexivity | reflexivity | apply le_n
    | discriminate].
Defined.

End MoreWitnesses.
